(** * npm-mcp-server: the API client, the CLI and the tool-server start-up

  A shallow embedding of [api-client.ts] (class [NpmApiClient]), of
  [cli.ts] and of the configuration block of [index.ts], with the
  properties of the natural-language specification stated over it.

  The JavaScript runtime the code calls into ([fetch], [JSON], [Date]) is
  an interface here, class [Runtime]: every theorem holds for every
  remote server and every implementation of that interface. *)

From Stdlib Require Import ZArith Ascii String List Bool Lia.
From stdpp Require Import base tactics option list strings gmap pretty.

Local Open Scope Z_scope.

(** ** JavaScript values *)

Module Js.

(** The double quote character, as a one-character string. *)
Definition dquote : string := String (ascii_of_nat 34) EmptyString.

(** Numbers the code computes with: the results of [parseInt] (an
    integer or [NaN]) and resource ids. *)
Inductive Number : Type :=
| NaN
| Num (z : Z).

#[warnings="-register-all"]
Inductive Value : Type :=
| Undefined
| Null
| Boolean (b : bool)
| Numeric (n : Number)
| Str (s : string)
| Arr (items : list Value)
| Obj (fields : list (string * Value)).

(** [{}] *)
Definition emptyObject : Value := Obj [].

(** ToBoolean. *)
Definition truthy (v : Value) : bool :=
  match v with
  | Undefined | Null => false
  | Boolean b => b
  | Numeric NaN => false
  | Numeric (Num z) => negb (z =? 0)
  | Str s => negb (String.eqb s EmptyString)
  | Arr _ | Obj _ => true
  end.

(** ToBoolean of a string: the empty string is falsy. *)
Definition truthy_string (s : string) : bool :=
  negb (String.eqb s EmptyString).

(** An [Error] object: its [name] and its [message]. *)
Record Error : Type := mkError { name : string; message : string }.

(** [new Error(msg)] *)
Definition Error_ (msg : string) : Error :=
  {| name := "Error"; message := msg |}.

(** What evaluating a call yields: a value, or a thrown error (a rejected
    promise, for an [async] function). *)
Inductive Completion (A : Type) : Type :=
| Normal (a : A)
| Abrupt (e : Error).
Arguments Normal {A} a.
Arguments Abrupt {A} e.

(** A [Date]: its time value in milliseconds, or an invalid date. *)
Inductive Date : Type :=
| InvalidDate
| TimeValue (ms : Z).

(** [d > new Date()], the clock reading [now]: both sides are converted
    to numbers, and a comparison with [NaN] is false. *)
Definition Date_gt (d : Date) (now : Z) : bool :=
  match d with
  | InvalidDate => false
  | TimeValue ms => now <? ms
  end.

(** [String.prototype.startsWith] *)
Definition startsWith (s prefix : string) : bool := String.prefix prefix s.

(** [String.prototype.includes] *)
Fixpoint includes (s needle : string) : bool :=
  String.prefix needle s ||
  match s with
  | EmptyString => false
  | String _ rest => includes rest needle
  end.

End Js.

Import Js.

(** ** HTTP requests and responses, as [fetch] sees them *)

Module Http.

Record Request : Type := mkRequest {
  url : string;
  method : string;
  headers : list (string * string);
  body : option string
}.

Record Response : Type := mkResponse {
  status : Z;
  text : string
}.

(** [response.ok]: the status is in the range 200-299. *)
Definition ok (r : Response) : bool :=
  (200 <=? status r) && (status r <=? 299).

(** The value of header [h] of a request, if it carries one. *)
Fixpoint header (h : string) (hs : list (string * string)) : option string :=
  match hs with
  | [] => None
  | (k, v) :: rest => if String.eqb k h then Some v else header h rest
  end.

End Http.

Import Http.

(** [TokenResponse] of api-client.ts. *)
Record TokenResponse : Type := mkTokenResponse {
  tr_token : string;
  tr_expires : string
}.

(** ** The runtime interface

  [fetch] sends a request to the remote service, whose state is part of
  the [World], and fulfils with a response or rejects; [Date_now] is the
  clock [new Date()] reads; [Date_parse] is [new Date(s)] of a string;
  [JSON_parse] is [response.json()] of a body, which rejects on a body
  that is not JSON; [JSON_stringify] is [JSON.stringify(v)] and
  [JSON_stringify_indented] is [JSON.stringify(v, null, 2)];
  [asTokenResponse] is the TypeScript cast [as TokenResponse], the view of
  a decoded body at its declared type (both fields strings). *)
Class Runtime : Type := {
  World : Type;
  fetch : World -> Request -> Completion Response * World;
  Date_now : World -> Z;
  Date_parse : string -> Date;
  JSON_parse : string -> Completion Value;
  JSON_stringify : Value -> string;
  JSON_stringify_indented : Value -> string;
  asTokenResponse : Value -> TokenResponse
}.

(** ** The API client (api-client.ts) *)

Module Client.

(** [NpmConfig]; [readonly] is optional. *)
Record NpmConfig : Type := mkConfig {
  cfg_baseUrl : string;
  cfg_email : string;
  cfg_password : string;
  cfg_readonly : option bool
}.

(** The fields of an [NpmApiClient] instance. *)
Record NpmApiClient : Type := mkClient {
  baseUrl : string;
  token : option string;
  tokenExpires : option Date;
  email : string;
  password : string;
  _readonly : bool
}.

(** [s.replace(/\/$/, "")]: the pattern matches a ["/"] at the very end of
    the string (no [m] flag), and [replace] drops that one match. *)
Fixpoint stripTrailingSlash (s : string) : string :=
  match s with
  | EmptyString => EmptyString
  | String c rest =>
      match rest with
      | EmptyString => if Ascii.eqb c "/" then EmptyString else s
      | String _ _ => String c (stripTrailingSlash rest)
      end
  end.

(** The constructor. *)
Definition new (config : NpmConfig) : NpmApiClient :=
  {| baseUrl := stripTrailingSlash (cfg_baseUrl config);
     token := None;
     tokenExpires := None;
     email := cfg_email config;
     password := cfg_password config;
     _readonly := default false (cfg_readonly config) |}.

(** [get isReadonly] *)
Definition isReadonly (c : NpmApiClient) : bool := _readonly c.

(** [class ReadonlyModeError extends Error] *)
Definition ReadonlyModeError (operation : string) : Error :=
  {| name := "ReadonlyModeError";
     message := "Operation " +:+ dquote +:+ operation +:+ dquote
                +:+ " is not allowed in readonly mode" |}.

(** The condition of the first [if] of [ensureToken], at clock reading
    [now]: [this.token && this.tokenExpires && this.tokenExpires > new Date()].
    A [Date] object is truthy, also when it is invalid. *)
Definition cachedToken (c : NpmApiClient) (now : Z) : option string :=
  match token c, tokenExpires c with
  | Some t, Some d => if truthy_string t && Date_gt d now then Some t else None
  | _, _ => None
  end.

Section WithRuntime.
Context `{RT : Runtime}.

(** A running client: the instance, the world it talks to, and the log of
    the requests handed to [fetch] so far (a ghost field, for the
    statements about what is sent). *)
Record State : Type := mkState {
  client : NpmApiClient;
  world : World;
  sent : list Request
}.

(** Computations of the client: they may update the state and either
    return or throw; what was done before a throw stays done. *)
Definition M (A : Type) : Type := State -> Completion A * State.

Definition ret {A} (a : A) : M A := fun st => (Normal a, st).

Definition throw {A} (e : Error) : M A := fun st => (Abrupt e, st).

Definition bind {A B} (m : M A) (k : A -> M B) : M B :=
  fun st =>
    match m st with
    | (Normal a, st') => k a st'
    | (Abrupt e, st') => (Abrupt e, st')
    end.

Notation "'let!' x ':=' m 'in' k" := (bind m (fun x => k))
  (at level 10, x name, m at level 100, k at level 200).
Notation "'do!' m 'in' k" := (bind m (fun _ => k))
  (at level 10, m at level 100, k at level 200).

Definition this : M NpmApiClient := fun st => (Normal (client st), st).

Definition now : M Z := fun st => (Normal (Date_now (world st)), st).

(** [await fetch(...)] *)
Definition doFetch (r : Request) : M Response :=
  fun st =>
    let '(c, w) := fetch (world st) r in
    (c, {| client := client st; world := w; sent := sent st ++ [r] |}).

(** [await response.json()] *)
Definition json (r : Response) : M Value :=
  fun st => (JSON_parse (text r), st).

(** [this.token = t; this.tokenExpires = d] *)
Definition storeToken (t : string) (d : Date) : M unit :=
  fun st =>
    let c := client st in
    (Normal tt,
     {| client := {| baseUrl := baseUrl c; token := Some t;
                     tokenExpires := Some d; email := email c;
                     password := password c; _readonly := _readonly c |};
        world := world st; sent := sent st |}).

(** The request of the authentication exchange. *)
Definition tokenRequest (c : NpmApiClient) : Request :=
  {| url := baseUrl c +:+ "/api/tokens";
     method := "POST";
     headers := [("Content-Type", "application/json")];
     body := Some (JSON_stringify
                     (Obj [("identity", Str (email c));
                           ("secret", Str (password c))])) |}.

Definition assertWritable (operation : string) : M unit :=
  let! c := this in
  if _readonly c then throw (ReadonlyModeError operation) else ret tt.

Definition authenticate : M string :=
  let! c := this in
  let! response := doFetch (tokenRequest c) in
  if negb (ok response) then
    throw (Error_ ("Authentication failed: " +:+ text response))
  else
    let! data := json response in
    let tr := asTokenResponse data in
    do! storeToken (tr_token tr) (Date_parse (tr_expires tr)) in
    ret (tr_token tr).

Definition ensureToken : M string :=
  let! c := this in
  let! t := now in
  match cachedToken c t with
  | Some tok => ret tok
  | None => authenticate
  end.

(** The request [request] sends for [method], [path] and [body], with
    bearer token [tok]. *)
Definition resourceRequest (c : NpmApiClient) (tok : string)
    (method path : string) (body : Value) : Request :=
  {| url := baseUrl c +:+ "/api" +:+ path;
     method := method;
     headers := [("Content-Type", "application/json");
                 ("Authorization", "Bearer " +:+ tok)];
     body := if truthy body then Some (JSON_stringify body) else None |}.

(** What [request] makes of the response. *)
Definition decode (response : Response) : M Value :=
  if negb (ok response) then
    throw (Error_ ("API request failed: " +:+ pretty (status response)
                   +:+ " - " +:+ text response))
  else if status response =? 204 then ret emptyObject
  else json response.

Definition request (method path : string) (body : Value) : M Value :=
  let! tok := ensureToken in
  let! c := this in
  let! response := doFetch (resourceRequest c tok method path body) in
  decode response.

(** [`${id}`] of a resource id. Ids are integers (the remote resources are
    identified by an integer id), printed in decimal. *)
Definition idString (id : Z) : string := pretty id.

(** *** Proxy hosts *)
Definition listProxyHosts : M Value :=
  request "GET" "/nginx/proxy-hosts" Undefined.

Definition getProxyHost (id : Z) : M Value :=
  request "GET" ("/nginx/proxy-hosts/" +:+ idString id) Undefined.

Definition createProxyHost (data : Value) : M Value :=
  do! assertWritable "createProxyHost" in
  request "POST" "/nginx/proxy-hosts" data.

Definition updateProxyHost (id : Z) (data : Value) : M Value :=
  do! assertWritable "updateProxyHost" in
  request "PUT" ("/nginx/proxy-hosts/" +:+ idString id) data.

(** Declared [Promise<void>]: the value of [request] is dropped. *)
Definition deleteProxyHost (id : Z) : M Value :=
  do! assertWritable "deleteProxyHost" in
  do! request "DELETE" ("/nginx/proxy-hosts/" +:+ idString id) Undefined in
  ret Undefined.

Definition enableProxyHost (id : Z) : M Value :=
  do! assertWritable "enableProxyHost" in
  request "POST" ("/nginx/proxy-hosts/" +:+ idString id +:+ "/enable") Undefined.

Definition disableProxyHost (id : Z) : M Value :=
  do! assertWritable "disableProxyHost" in
  request "POST" ("/nginx/proxy-hosts/" +:+ idString id +:+ "/disable") Undefined.

(** *** Certificates *)

Definition listCertificates : M Value :=
  request "GET" "/nginx/certificates" Undefined.

Definition getCertificate (id : Z) : M Value :=
  request "GET" ("/nginx/certificates/" +:+ idString id) Undefined.

Definition deleteCertificate (id : Z) : M Value :=
  do! assertWritable "deleteCertificate" in
  do! request "DELETE" ("/nginx/certificates/" +:+ idString id) Undefined in
  ret Undefined.

Definition renewCertificate (id : Z) : M Value :=
  do! assertWritable "renewCertificate" in
  request "POST" ("/nginx/certificates/" +:+ idString id +:+ "/renew") Undefined.

(** *** Streams *)
Definition listStreams : M Value :=
  request "GET" "/nginx/streams" Undefined.

Definition getStream (id : Z) : M Value :=
  request "GET" ("/nginx/streams/" +:+ idString id) Undefined.

Definition createStream (data : Value) : M Value :=
  do! assertWritable "createStream" in
  request "POST" "/nginx/streams" data.

Definition updateStream (id : Z) (data : Value) : M Value :=
  do! assertWritable "updateStream" in
  request "PUT" ("/nginx/streams/" +:+ idString id) data.

(** Declared [Promise<void>]: the value of [request] is dropped. *)
Definition deleteStream (id : Z) : M Value :=
  do! assertWritable "deleteStream" in
  do! request "DELETE" ("/nginx/streams/" +:+ idString id) Undefined in
  ret Undefined.

Definition enableStream (id : Z) : M Value :=
  do! assertWritable "enableStream" in
  request "POST" ("/nginx/streams/" +:+ idString id +:+ "/enable") Undefined.

Definition disableStream (id : Z) : M Value :=
  do! assertWritable "disableStream" in
  request "POST" ("/nginx/streams/" +:+ idString id +:+ "/disable") Undefined.

(** *** Redirection hosts *)

Definition listRedirectionHosts : M Value :=
  request "GET" "/nginx/redirection-hosts" Undefined.

Definition getRedirectionHost (id : Z) : M Value :=
  request "GET" ("/nginx/redirection-hosts/" +:+ idString id) Undefined.

Definition createRedirectionHost (data : Value) : M Value :=
  do! assertWritable "createRedirectionHost" in
  request "POST" "/nginx/redirection-hosts" data.

Definition updateRedirectionHost (id : Z) (data : Value) : M Value :=
  do! assertWritable "updateRedirectionHost" in
  request "PUT" ("/nginx/redirection-hosts/" +:+ idString id) data.

(** Declared [Promise<void>]: the value of [request] is dropped. *)
Definition deleteRedirectionHost (id : Z) : M Value :=
  do! assertWritable "deleteRedirectionHost" in
  do! request "DELETE" ("/nginx/redirection-hosts/" +:+ idString id) Undefined in
  ret Undefined.

Definition enableRedirectionHost (id : Z) : M Value :=
  do! assertWritable "enableRedirectionHost" in
  request "POST" ("/nginx/redirection-hosts/" +:+ idString id +:+ "/enable") Undefined.

Definition disableRedirectionHost (id : Z) : M Value :=
  do! assertWritable "disableRedirectionHost" in
  request "POST" ("/nginx/redirection-hosts/" +:+ idString id +:+ "/disable") Undefined.

(** *** Dead hosts (404 hosts) *)

Definition listDeadHosts : M Value :=
  request "GET" "/nginx/dead-hosts" Undefined.

Definition getDeadHost (id : Z) : M Value :=
  request "GET" ("/nginx/dead-hosts/" +:+ idString id) Undefined.

Definition createDeadHost (data : Value) : M Value :=
  do! assertWritable "createDeadHost" in
  request "POST" "/nginx/dead-hosts" data.

Definition updateDeadHost (id : Z) (data : Value) : M Value :=
  do! assertWritable "updateDeadHost" in
  request "PUT" ("/nginx/dead-hosts/" +:+ idString id) data.

(** Declared [Promise<void>]: the value of [request] is dropped. *)
Definition deleteDeadHost (id : Z) : M Value :=
  do! assertWritable "deleteDeadHost" in
  do! request "DELETE" ("/nginx/dead-hosts/" +:+ idString id) Undefined in
  ret Undefined.

Definition enableDeadHost (id : Z) : M Value :=
  do! assertWritable "enableDeadHost" in
  request "POST" ("/nginx/dead-hosts/" +:+ idString id +:+ "/enable") Undefined.

Definition disableDeadHost (id : Z) : M Value :=
  do! assertWritable "disableDeadHost" in
  request "POST" ("/nginx/dead-hosts/" +:+ idString id +:+ "/disable") Undefined.

(** *** Access lists *)

Definition listAccessLists : M Value :=
  request "GET" "/nginx/access-lists" Undefined.

Definition getAccessList (id : Z) : M Value :=
  request "GET" ("/nginx/access-lists/" +:+ idString id) Undefined.

Definition createAccessList (data : Value) : M Value :=
  do! assertWritable "createAccessList" in
  request "POST" "/nginx/access-lists" data.

Definition updateAccessList (id : Z) (data : Value) : M Value :=
  do! assertWritable "updateAccessList" in
  request "PUT" ("/nginx/access-lists/" +:+ idString id) data.

(** Declared [Promise<void>]: the value of [request] is dropped. *)
Definition deleteAccessList (id : Z) : M Value :=
  do! assertWritable "deleteAccessList" in
  do! request "DELETE" ("/nginx/access-lists/" +:+ idString id) Undefined in
  ret Undefined.

(** *** Users *)

Definition listUsers : M Value :=
  request "GET" "/users" Undefined.

Definition getUser (id : Z) : M Value :=
  request "GET" ("/users/" +:+ idString id) Undefined.

(** *** Health *)

(** The request of [getHealth]: [fetch(url)] with no options, so a GET
    without headers and without a body. *)
Definition healthRequest (c : NpmApiClient) : Request :=
  {| url := baseUrl c +:+ "/api/";
     method := "GET";
     headers := [];
     body := None |}.

Definition getHealth : M Value :=
  let! c := this in
  let! response := doFetch (healthRequest c) in
  json response.

(** *** The public methods, as one type

    One constructor per public [async] method of the class, so that a
    statement can range over all of them. *)
Inductive Op : Type :=
| ListProxyHosts
| GetProxyHost (id : Z)
| CreateProxyHost (data : Value)
| UpdateProxyHost (id : Z) (data : Value)
| DeleteProxyHost (id : Z)
| EnableProxyHost (id : Z)
| DisableProxyHost (id : Z)
| ListCertificates
| GetCertificate (id : Z)
| DeleteCertificate (id : Z)
| RenewCertificate (id : Z)
| ListStreams
| GetStream (id : Z)
| CreateStream (data : Value)
| UpdateStream (id : Z) (data : Value)
| DeleteStream (id : Z)
| EnableStream (id : Z)
| DisableStream (id : Z)
| ListRedirectionHosts
| GetRedirectionHost (id : Z)
| CreateRedirectionHost (data : Value)
| UpdateRedirectionHost (id : Z) (data : Value)
| DeleteRedirectionHost (id : Z)
| EnableRedirectionHost (id : Z)
| DisableRedirectionHost (id : Z)
| ListDeadHosts
| GetDeadHost (id : Z)
| CreateDeadHost (data : Value)
| UpdateDeadHost (id : Z) (data : Value)
| DeleteDeadHost (id : Z)
| EnableDeadHost (id : Z)
| DisableDeadHost (id : Z)
| ListAccessLists
| GetAccessList (id : Z)
| CreateAccessList (data : Value)
| UpdateAccessList (id : Z) (data : Value)
| DeleteAccessList (id : Z)
| ListUsers
| GetUser (id : Z)
| GetHealth.

(** Calling the method. *)
Definition invoke (o : Op) : M Value :=
  match o with
  | ListProxyHosts => listProxyHosts
  | GetProxyHost id => getProxyHost id
  | CreateProxyHost data => createProxyHost data
  | UpdateProxyHost id data => updateProxyHost id data
  | DeleteProxyHost id => deleteProxyHost id
  | EnableProxyHost id => enableProxyHost id
  | DisableProxyHost id => disableProxyHost id
  | ListCertificates => listCertificates
  | GetCertificate id => getCertificate id
  | DeleteCertificate id => deleteCertificate id
  | RenewCertificate id => renewCertificate id
  | ListStreams => listStreams
  | GetStream id => getStream id
  | CreateStream data => createStream data
  | UpdateStream id data => updateStream id data
  | DeleteStream id => deleteStream id
  | EnableStream id => enableStream id
  | DisableStream id => disableStream id
  | ListRedirectionHosts => listRedirectionHosts
  | GetRedirectionHost id => getRedirectionHost id
  | CreateRedirectionHost data => createRedirectionHost data
  | UpdateRedirectionHost id data => updateRedirectionHost id data
  | DeleteRedirectionHost id => deleteRedirectionHost id
  | EnableRedirectionHost id => enableRedirectionHost id
  | DisableRedirectionHost id => disableRedirectionHost id
  | ListDeadHosts => listDeadHosts
  | GetDeadHost id => getDeadHost id
  | CreateDeadHost data => createDeadHost data
  | UpdateDeadHost id data => updateDeadHost id data
  | DeleteDeadHost id => deleteDeadHost id
  | EnableDeadHost id => enableDeadHost id
  | DisableDeadHost id => disableDeadHost id
  | ListAccessLists => listAccessLists
  | GetAccessList id => getAccessList id
  | CreateAccessList data => createAccessList data
  | UpdateAccessList id data => updateAccessList id data
  | DeleteAccessList id => deleteAccessList id
  | ListUsers => listUsers
  | GetUser id => getUser id
  | GetHealth => getHealth
  end.

(** The method's name. *)
Definition opName (o : Op) : string :=
  match o with
  | ListProxyHosts => "listProxyHosts"
  | GetProxyHost _ => "getProxyHost"
  | CreateProxyHost _ => "createProxyHost"
  | UpdateProxyHost _ _ => "updateProxyHost"
  | DeleteProxyHost _ => "deleteProxyHost"
  | EnableProxyHost _ => "enableProxyHost"
  | DisableProxyHost _ => "disableProxyHost"
  | ListCertificates => "listCertificates"
  | GetCertificate _ => "getCertificate"
  | DeleteCertificate _ => "deleteCertificate"
  | RenewCertificate _ => "renewCertificate"
  | ListStreams => "listStreams"
  | GetStream _ => "getStream"
  | CreateStream _ => "createStream"
  | UpdateStream _ _ => "updateStream"
  | DeleteStream _ => "deleteStream"
  | EnableStream _ => "enableStream"
  | DisableStream _ => "disableStream"
  | ListRedirectionHosts => "listRedirectionHosts"
  | GetRedirectionHost _ => "getRedirectionHost"
  | CreateRedirectionHost _ => "createRedirectionHost"
  | UpdateRedirectionHost _ _ => "updateRedirectionHost"
  | DeleteRedirectionHost _ => "deleteRedirectionHost"
  | EnableRedirectionHost _ => "enableRedirectionHost"
  | DisableRedirectionHost _ => "disableRedirectionHost"
  | ListDeadHosts => "listDeadHosts"
  | GetDeadHost _ => "getDeadHost"
  | CreateDeadHost _ => "createDeadHost"
  | UpdateDeadHost _ _ => "updateDeadHost"
  | DeleteDeadHost _ => "deleteDeadHost"
  | EnableDeadHost _ => "enableDeadHost"
  | DisableDeadHost _ => "disableDeadHost"
  | ListAccessLists => "listAccessLists"
  | GetAccessList _ => "getAccessList"
  | CreateAccessList _ => "createAccessList"
  | UpdateAccessList _ _ => "updateAccessList"
  | DeleteAccessList _ => "deleteAccessList"
  | ListUsers => "listUsers"
  | GetUser _ => "getUser"
  | GetHealth => "getHealth"
  end.

(** The methods whose body starts with [this.assertWritable(...)]. *)
Definition mutating (o : Op) : bool :=
  match o with
  | CreateProxyHost _ | UpdateProxyHost _ _ | DeleteProxyHost _
  | EnableProxyHost _ | DisableProxyHost _ | DeleteCertificate _
  | RenewCertificate _ | CreateStream _ | UpdateStream _ _
  | DeleteStream _ | EnableStream _ | DisableStream _
  | CreateRedirectionHost _ | UpdateRedirectionHost _ _
  | DeleteRedirectionHost _ | EnableRedirectionHost _
  | DisableRedirectionHost _ | CreateDeadHost _ | UpdateDeadHost _ _
  | DeleteDeadHost _ | EnableDeadHost _ | DisableDeadHost _
  | CreateAccessList _ | UpdateAccessList _ _ | DeleteAccessList _ => true
  | _ => false
  end.

(** The methods declared [Promise<void>]. *)
Definition returnsVoid (o : Op) : bool :=
  match o with
  | DeleteProxyHost _ | DeleteCertificate _ | DeleteStream _
  | DeleteRedirectionHost _ | DeleteDeadHost _ | DeleteAccessList _ => true
  | _ => false
  end.

(** The arguments of the method's call of [request]: HTTP method, path and
    body. [getHealth] does not go through [request]. *)
Definition requestOf (o : Op) : option (string * string * Value) :=
  match o with
  | ListProxyHosts => Some ("GET", "/nginx/proxy-hosts", Undefined)
  | GetProxyHost id => Some ("GET", ("/nginx/proxy-hosts/" +:+ idString id), Undefined)
  | CreateProxyHost data => Some ("POST", "/nginx/proxy-hosts", data)
  | UpdateProxyHost id data => Some ("PUT", ("/nginx/proxy-hosts/" +:+ idString id), data)
  | DeleteProxyHost id => Some ("DELETE", ("/nginx/proxy-hosts/" +:+ idString id), Undefined)
  | EnableProxyHost id => Some ("POST", ("/nginx/proxy-hosts/" +:+ idString id +:+ "/enable"), Undefined)
  | DisableProxyHost id => Some ("POST", ("/nginx/proxy-hosts/" +:+ idString id +:+ "/disable"), Undefined)
  | ListCertificates => Some ("GET", "/nginx/certificates", Undefined)
  | GetCertificate id => Some ("GET", ("/nginx/certificates/" +:+ idString id), Undefined)
  | DeleteCertificate id => Some ("DELETE", ("/nginx/certificates/" +:+ idString id), Undefined)
  | RenewCertificate id => Some ("POST", ("/nginx/certificates/" +:+ idString id +:+ "/renew"), Undefined)
  | ListStreams => Some ("GET", "/nginx/streams", Undefined)
  | GetStream id => Some ("GET", ("/nginx/streams/" +:+ idString id), Undefined)
  | CreateStream data => Some ("POST", "/nginx/streams", data)
  | UpdateStream id data => Some ("PUT", ("/nginx/streams/" +:+ idString id), data)
  | DeleteStream id => Some ("DELETE", ("/nginx/streams/" +:+ idString id), Undefined)
  | EnableStream id => Some ("POST", ("/nginx/streams/" +:+ idString id +:+ "/enable"), Undefined)
  | DisableStream id => Some ("POST", ("/nginx/streams/" +:+ idString id +:+ "/disable"), Undefined)
  | ListRedirectionHosts => Some ("GET", "/nginx/redirection-hosts", Undefined)
  | GetRedirectionHost id => Some ("GET", ("/nginx/redirection-hosts/" +:+ idString id), Undefined)
  | CreateRedirectionHost data => Some ("POST", "/nginx/redirection-hosts", data)
  | UpdateRedirectionHost id data => Some ("PUT", ("/nginx/redirection-hosts/" +:+ idString id), data)
  | DeleteRedirectionHost id => Some ("DELETE", ("/nginx/redirection-hosts/" +:+ idString id), Undefined)
  | EnableRedirectionHost id => Some ("POST", ("/nginx/redirection-hosts/" +:+ idString id +:+ "/enable"), Undefined)
  | DisableRedirectionHost id => Some ("POST", ("/nginx/redirection-hosts/" +:+ idString id +:+ "/disable"), Undefined)
  | ListDeadHosts => Some ("GET", "/nginx/dead-hosts", Undefined)
  | GetDeadHost id => Some ("GET", ("/nginx/dead-hosts/" +:+ idString id), Undefined)
  | CreateDeadHost data => Some ("POST", "/nginx/dead-hosts", data)
  | UpdateDeadHost id data => Some ("PUT", ("/nginx/dead-hosts/" +:+ idString id), data)
  | DeleteDeadHost id => Some ("DELETE", ("/nginx/dead-hosts/" +:+ idString id), Undefined)
  | EnableDeadHost id => Some ("POST", ("/nginx/dead-hosts/" +:+ idString id +:+ "/enable"), Undefined)
  | DisableDeadHost id => Some ("POST", ("/nginx/dead-hosts/" +:+ idString id +:+ "/disable"), Undefined)
  | ListAccessLists => Some ("GET", "/nginx/access-lists", Undefined)
  | GetAccessList id => Some ("GET", ("/nginx/access-lists/" +:+ idString id), Undefined)
  | CreateAccessList data => Some ("POST", "/nginx/access-lists", data)
  | UpdateAccessList id data => Some ("PUT", ("/nginx/access-lists/" +:+ idString id), data)
  | DeleteAccessList id => Some ("DELETE", ("/nginx/access-lists/" +:+ idString id), Undefined)
  | ListUsers => Some ("GET", "/users", Undefined)
  | GetUser id => Some ("GET", ("/users/" +:+ idString id), Undefined)
  | GetHealth => None
  end.

(** *** Notions the statements use *)

(** The client [c] with its readonly flag set to [flag]. *)
Definition setReadonly (flag : bool) (c : NpmApiClient) : NpmApiClient :=
  {| baseUrl := baseUrl c; token := token c;
     tokenExpires := tokenExpires c; email := email c;
     password := password c; _readonly := flag |}.

(** The state [st] with the readonly flag of its client set to [flag]. *)
Definition withReadonly (flag : bool) (st : State) : State :=
  {| client := setReadonly flag (client st);
     world := world st; sent := sent st |}.

(** The state [st] once the world has moved on to [w] between two calls
    (time has passed, the remote service may have changed). *)
Definition resume (st : State) (w : World) : State :=
  {| client := client st; world := w; sent := sent st |}.

(** A request to the token endpoint of client [c]. *)
Definition isTokenRequest (c : NpmApiClient) (r : Request) : bool :=
  String.eqb (url r) (baseUrl c +:+ "/api/tokens").

(** The fields the constructor sets and no method assigns. *)
Definition sameConfig (c c' : NpmApiClient) : Prop :=
  baseUrl c' = baseUrl c /\ email c' = email c /\
  password c' = password c /\ _readonly c' = _readonly c.

(** A method body that starts with the guard when [o] is a mutating
    method. *)
Definition guarded (o : Op) (body : M Value) : M Value :=
  if mutating o then (do! assertWritable (opName o) in body) else body.

(** A method body whose result is dropped when [o] is declared
    [Promise<void>]. *)
Definition finish (o : Op) (body : M Value) : M Value :=
  if returnsVoid o then (do! body in ret Undefined) else body.

(** The mutating methods, by name, as the specification lists them. *)
Definition mutatingNames : list string :=
   ["createProxyHost"; "updateProxyHost"; "deleteProxyHost";
    "enableProxyHost"; "disableProxyHost"; "createStream"; "updateStream";
    "deleteStream"; "enableStream"; "disableStream";
    "createRedirectionHost"; "updateRedirectionHost";
    "deleteRedirectionHost"; "enableRedirectionHost";
    "disableRedirectionHost"; "createDeadHost"; "updateDeadHost";
    "deleteDeadHost"; "enableDeadHost"; "disableDeadHost";
    "createAccessList"; "updateAccessList"; "deleteAccessList";
    "deleteCertificate"; "renewCertificate"].

(** A computation that does not read the readonly flag: run on a state
    with another flag, it does the same and keeps that flag. *)
Definition FlagBlind {A} (m : M A) : Prop :=
  forall flag st,
    m (withReadonly flag st)
    = (fst (m st), withReadonly flag (snd (m st))).

(** A computation that keeps the configuration of the client. *)
Definition KeepsConfig {A} (m : M A) : Prop :=
  forall st, sameConfig (client st) (client (snd (m st))).

(** The requests a call of method [o] in state [st] hands to [fetch], in
    order: none when the guard refuses the call; else the resource request
    alone when the cached token is still good; else the token request,
    followed by the resource request if the exchange gave a token. *)
Definition requestsOf (o : Op) (st : State) : list Request :=
  match requestOf o with
  | None => [healthRequest (client st)]
  | Some (m, p, b) =>
      if mutating o && _readonly (client st) then []
      else
        match cachedToken (client st) (Date_now (world st)) with
        | Some tok => [resourceRequest (client st) tok m p b]
        | None =>
            tokenRequest (client st)
            :: match authenticate st with
               | (Normal tok, st1) => [resourceRequest (client st1) tok m p b]
               | (Abrupt _, _) => []
               end
        end
  end.

(** The state after [fetch] was called on [r] and left the world [w]. *)
Definition afterFetch (st : State) (r : Request) (w : World) : State :=
  {| client := client st; world := w; sent := sent st ++ [r] |}.

(** The client [c] once the fields of token response [tr] are stored. *)
Definition withToken (tr : TokenResponse) (c : NpmApiClient) : NpmApiClient :=
  {| baseUrl := baseUrl c; token := Some (tr_token tr);
     tokenExpires := Some (Date_parse (tr_expires tr)); email := email c;
     password := password c; _readonly := _readonly c |}.

(** The guard lets method [o] through in state [st]. *)
Definition admitted (o : Op) (st : State) : Prop :=
  mutating o = false \/ _readonly (client st) = false.

(** The cached token of client [c] is good at clock reading [t]: a
    non-empty token is stored, and the stored expiry is a valid date
    strictly later than [t]. *)
Definition tokenValid (c : NpmApiClient) (t : Z) : Prop :=
  exists tok ms,
    token c = Some tok /\ tok <> EmptyString /\
    tokenExpires c = Some (TimeValue ms) /\ t < ms.

(** How many of the requests [l] go to the token endpoint of [c]. *)
Definition countTokenRequests (c : NpmApiClient) (l : list Request) : nat :=
  length (List.filter (isTokenRequest c) l).

(** [s.endsWith("/")] *)
Fixpoint endsWithSlash (s : string) : bool :=
  match s with
  | EmptyString => false
  | String c rest =>
      match rest with
      | EmptyString => Ascii.eqb c "/"
      | String _ _ => endsWithSlash rest
      end
  end.

(** The configuration with base URL [u]. *)
Definition configFor (u mail pw : string) (ro : option bool) : NpmConfig :=
  {| cfg_baseUrl := u; cfg_email := mail; cfg_password := pw;
     cfg_readonly := ro |}.

(** A new client for configuration [config] in world [w], nothing sent
    yet. *)
Definition fresh (config : NpmConfig) (w : World) : State :=
  {| client := new config; world := w; sent := [] |}.

(** *** Further notions *)

(** The id argument of the method, if it has one. *)
Definition opId (o : Op) : option Z :=
  match o with
  | GetProxyHost id | UpdateProxyHost id _ | DeleteProxyHost id
  | EnableProxyHost id | DisableProxyHost id | GetCertificate id
  | DeleteCertificate id | RenewCertificate id | GetStream id
  | UpdateStream id _ | DeleteStream id | EnableStream id
  | DisableStream id | GetRedirectionHost id | UpdateRedirectionHost id _
  | DeleteRedirectionHost id | EnableRedirectionHost id
  | DisableRedirectionHost id | GetDeadHost id | UpdateDeadHost id _
  | DeleteDeadHost id | EnableDeadHost id | DisableDeadHost id
  | GetAccessList id | UpdateAccessList id _ | DeleteAccessList id
  | GetUser id => Some id
  | _ => None
  end.

(** A request that changes nothing on the remote service: the token
    request of client [c], or a GET without a body. *)
Definition readOnlyRequest (c : NpmApiClient) (r : Request) : Prop :=
  r = tokenRequest c \/ (method r = "GET" /\ body r = None).

(** [reaches st st']: the state [st'] comes from [st] by calls of methods,
    with the world free to move on between them. *)
Inductive reaches : State -> State -> Prop :=
| reaches_here (st : State) : reaches st st
| reaches_call (st st' : State) (o : Op) :
    reaches st st' -> reaches st (snd (invoke o st'))
| reaches_wait (st st' : State) (w : World) :
    reaches st st' -> reaches st (resume st' w).

End WithRuntime.
End Client.

(** ** Built-in functions the CLI uses *)

Module Builtin.

(** White space [parseInt] skips. Strings are sequences of 8-bit
    characters here, so of the white space of ECMAScript only the ASCII
    characters TAB, LF, VT, FF, CR and SP are covered. *)
Definition isWhiteSpace (c : ascii) : bool :=
  let n := nat_of_ascii c in
  ((9 <=? n) && (n <=? 13))%nat || (n =? 32)%nat.

Fixpoint trimStart (s : string) : string :=
  match s with
  | EmptyString => EmptyString
  | String c rest => if isWhiteSpace c then trimStart rest else s
  end.

(** The value of [c] as a digit in [radix], if it is one. *)
Definition digitValue (radix : Z) (c : ascii) : option Z :=
  let n := Z.of_nat (nat_of_ascii c) in
  let d :=
    if (48 <=? n) && (n <=? 57) then Some (n - 48)
    else if (97 <=? n) && (n <=? 122) then Some (n - 87)
    else if (65 <=? n) && (n <=? 90) then Some (n - 55)
    else None in
  match d with
  | Some v => if v <? radix then Some v else None
  | None => None
  end.

(** The value of the longest prefix of [s] made of digits in [radix];
    [acc] is the value read so far, [None] while no digit was read. *)
Fixpoint readDigits (radix : Z) (s : string) (acc : option Z) : option Z :=
  match s with
  | EmptyString => acc
  | String c rest =>
      match digitValue radix c with
      | Some d => readDigits radix rest (Some (radix * default 0 acc + d))
      | None => acc
      end
  end.

(** [parseInt(s)] with no radix: leading white space is skipped, a sign is
    read, a [0x] or [0X] prefix selects radix 16, and the longest run of
    digits is the result; no digit gives [NaN]. The integer is exact (the
    rounding of integers beyond 2^53 to a double is not modelled). *)
Definition parseInt (s : string) : Number :=
  let s1 := trimStart s in
  let '(negative, s2) :=
    match s1 with
    | String "-" rest => (true, rest)
    | String "+" rest => (false, rest)
    | _ => (false, s1)
    end in
  let '(radix, s3) :=
    match s2 with
    | String "0" (String x rest) =>
        if Ascii.eqb x "x" || Ascii.eqb x "X" then (16, rest) else (10, s2)
    | _ => (10, s2)
    end in
  match readDigits radix s3 None with
  | None => NaN
  | Some n => Num (if negative : bool then - n else n)
  end.

(** [parseInt(x)] of a value that may be [undefined]: [undefined] is first
    converted to the string ["undefined"], which has no digit. *)
Definition parseIntOf (x : option string) : Number :=
  match x with
  | Some s => parseInt s
  | None => parseInt "undefined"
  end.

(** [s.slice(2)] *)
Definition slice2 (s : string) : string :=
  match s with
  | String _ (String _ rest) => rest
  | _ => EmptyString
  end.

(** [s.split(sep)] for a one-character separator. *)
Fixpoint split (sep : ascii) (s : string) : list string :=
  match s with
  | EmptyString => [EmptyString]
  | String c rest =>
      if Ascii.eqb c sep then EmptyString :: split sep rest
      else match split sep rest with
           | piece :: pieces => String c piece :: pieces
           | [] => [String c EmptyString]
           end
  end.

(** [x || d] for an optional string: [undefined] and the empty string are
    falsy. *)
Definition orString (x : option string) (d : string) : string :=
  match x with
  | Some s => if truthy_string s then s else d
  | None => d
  end.

(** [n || d] for a number: [NaN] and zero are falsy. *)
Definition orNumber (n : Number) (d : Z) : Number :=
  if truthy (Numeric n) then n else Num d.

(** [x === s] for an optional string [x]. *)
Definition strictEq (x : option string) (s : string) : bool :=
  match x with
  | Some v => String.eqb v s
  | None => false
  end.

(** Assigning property [k] of an object: an existing property keeps its
    place and takes the new value, a new one is added last. *)
Fixpoint setField (k : string) (v : Value) (fields : list (string * Value))
    : list (string * Value) :=
  match fields with
  | [] => [(k, v)]
  | (k', v') :: rest =>
      if String.eqb k' k then (k, v) :: rest
      else (k', v') :: setField k v rest
  end.

(** Reading property [k] of an object literal. *)
Fixpoint lookupField (k : string) (fields : list (string * Value)) : Value :=
  match fields with
  | [] => Undefined
  | (k', v) :: rest => if String.eqb k' k then v else lookupField k rest
  end.

Definition getField (v : Value) (k : string) : Value :=
  match v with
  | Obj fields => lookupField k fields
  | _ => Undefined
  end.

(** The own enumerable properties [{...v}] copies: those of an object,
    the indexed elements of an array or of a string, nothing for the other
    values. *)
Definition spread (v : Value) : list (string * Value) :=
  match v with
  | Obj fields => fields
  | Arr items => imap (fun i x => (pretty i, x)) items
  | Str s =>
      imap (fun i c => (pretty i, Str (String c EmptyString)))
           (list_ascii_of_string s)
  | _ => []
  end.

(** [pieces.join(sep)] *)
Fixpoint joinWith (sep : string) (pieces : list string) : string :=
  match pieces with
  | [] => EmptyString
  | [piece] => piece
  | piece :: rest => piece +:+ sep +:+ joinWith sep rest
  end.

(** The characters ["0"] to ["9"]. *)
Definition isDigit (c : ascii) : bool :=
  let n := nat_of_ascii c in ((48 <=? n) && (n <=? 57))%nat.

(** A string made of digits only. *)
Fixpoint allDigits (s : string) : bool :=
  match s with
  | EmptyString => true
  | String c rest => isDigit c && allDigits rest
  end.

End Builtin.

(** ** The command-line dispatcher (cli.ts) *)

Module Cli.
Import Client Builtin.

(** [process.env] *)
Definition Env : Type := gmap string string.

Definition NPM_URL (env : Env) : string :=
  orString (env !! "NPM_URL") "http://localhost:81".

Definition NPM_EMAIL (env : Env) : string :=
  orString (env !! "NPM_EMAIL") EmptyString.

Definition NPM_PASSWORD (env : Env) : string :=
  orString (env !! "NPM_PASSWORD") EmptyString.

(** [process.env.NPM_READONLY === "true"] *)
Definition NPM_READONLY (env : Env) : bool :=
  strictEq (env !! "NPM_READONLY") "true".

(** The client the module creates, unless the credentials check exits
    first: [None] stands for [process.exit(1)] after the message. *)
Definition startup (env : Env) : list string * option NpmApiClient :=
  if negb (truthy_string (NPM_EMAIL env))
     || negb (truthy_string (NPM_PASSWORD env)) then
    (["Error: NPM_EMAIL and NPM_PASSWORD environment variables are required"],
     None)
  else
    ([], Some (new {| cfg_baseUrl := NPM_URL env;
                      cfg_email := NPM_EMAIL env;
                      cfg_password := NPM_PASSWORD env;
                      cfg_readonly := Some (NPM_READONLY env) |})).

(** [parseArgs], the loop over [args] from index [i] on, with the object
    built so far. An option takes the next argument as its value unless
    that one is missing, empty or itself an option; then its value is
    ["true"] and the next argument is looked at again. *)
Fixpoint parseArgsLoop (args : list string) (result : gmap string string)
    : gmap string string :=
  match args with
  | [] => result
  | arg :: rest =>
      if startsWith arg "--" then
        let key := slice2 arg in
        match rest with
        | next :: rest' =>
            let value :=
              if truthy_string next && negb (startsWith next "--")
              then next else "true" in
            if negb (String.eqb value "true")
            then parseArgsLoop rest' (<[key := value]> result)
            else parseArgsLoop rest (<[key := value]> result)
        | [] => <[key := "true"]> result
        end
      else parseArgsLoop rest result
  end.

Definition parseArgs (args : list string) : gmap string string :=
  parseArgsLoop args ∅.

(** [opts.domains?.split(",") || []] *)
Definition domainsOf (opts : gmap string string) : Value :=
  match opts !! "domains" with
  | Some s => Arr (Str <$> split "," s)
  | None => Arr []
  end.

(** [opts[k] === "true"] *)
Definition flag (opts : gmap string string) (k : string) : Value :=
  Boolean (strictEq (opts !! k) "true").

(** [opts[k] !== "false"] *)
Definition flagUnlessFalse (opts : gmap string string) (k : string) : Value :=
  Boolean (negb (strictEq (opts !! k) "false")).

(** The object literal [proxy-hosts create] passes to [createProxyHost]. *)
Definition proxyHostInput (opts : gmap string string) : Value :=
  Obj [("domain_names", domainsOf opts);
       ("forward_host", Str (orString (opts !! "forward-host") EmptyString));
       ("forward_port",
        Numeric (orNumber (parseIntOf (opts !! "forward-port")) 80));
       ("forward_scheme", Str (orString (opts !! "forward-scheme") "http"));
       ("ssl_forced", flag opts "ssl-forced");
       ("allow_websocket_upgrade", flag opts "websocket");
       ("block_exploits", flag opts "block-exploits");
       ("caching_enabled", flag opts "caching");
       ("http2_support", flag opts "http2");
       ("certificate_id",
        match opts !! "certificate-id" with
        | Some s => if truthy_string s then Numeric (parseInt s) else Undefined
        | None => Undefined
        end)].

Definition streamInput (opts : gmap string string) : Value :=
  Obj [("incoming_port",
        Numeric (orNumber (parseIntOf (opts !! "incoming-port")) 0));
       ("forwarding_host",
        Str (orString (opts !! "forward-host") EmptyString));
       ("forwarding_port",
        Numeric (orNumber (parseIntOf (opts !! "forward-port")) 0));
       ("tcp_forwarding", flagUnlessFalse opts "tcp");
       ("udp_forwarding", flag opts "udp")].

Definition redirectionHostInput (opts : gmap string string) : Value :=
  Obj [("domain_names", domainsOf opts);
       ("forward_scheme",
        Str (orString (opts !! "forward-scheme") "$scheme"));
       ("forward_domain_name",
        Str (orString (opts !! "forward-domain") EmptyString));
       ("forward_http_code",
        Numeric (orNumber (parseIntOf (opts !! "http-code")) 301));
       ("preserve_path", flagUnlessFalse opts "preserve-path")].

Definition accessListInput (opts : gmap string string) : Value :=
  Obj [("name", Str (orString (opts !! "name") "New Access List"))].

Definition deadHostInput (opts : gmap string string) : Value :=
  Obj [("domain_names", domainsOf opts)].

(** The text the [default] case of the outer [switch] prints. *)
Definition usage : string :=
"
Nginx Proxy Manager CLI

Usage: npm-cli <command> <subcommand> [options]

Commands:
  status                          Get NPM status
  proxy-hosts list                List all proxy hosts
  proxy-hosts get <id>            Get proxy host details
  proxy-hosts create [options]    Create a proxy host
  proxy-hosts delete <id>         Delete a proxy host
  proxy-hosts enable <id>         Enable a proxy host
  proxy-hosts disable <id>        Disable a proxy host
  streams list                    List all streams
  streams create [options]        Create a stream
  streams delete <id>             Delete a stream
  certificates list               List all certificates
  certificates renew <id>         Renew a certificate
  redirections list               List all redirections
  redirections create [options]   Create a redirection
  access-lists list               List all access lists
  access-lists create [options]   Create an access list
  dead-hosts list                 List all 404 hosts
  dead-hosts create [options]     Create a 404 host
  users list                      List all users

Options for proxy-hosts create:
  --domains <domains>             Comma-separated domain names
  --forward-host <host>           Forward host
  --forward-port <port>           Forward port
  --forward-scheme <http|https>   Forward scheme (default: http)
  --ssl-forced                    Force SSL
  --websocket                     Enable WebSocket
  --http2                         Enable HTTP/2
  --certificate-id <id>           SSL certificate ID

Options for streams create:
  --incoming-port <port>          Incoming port
  --forward-host <host>           Forward host
  --forward-port <port>           Forward port
  --tcp                           Enable TCP (default: true)
  --udp                           Enable UDP

Environment Variables:
  NPM_URL                         NPM URL (default: http://localhost:81)
  NPM_EMAIL                       Admin email (required)
  NPM_PASSWORD                    Admin password (required)
  NPM_READONLY                    Readonly mode (default: false)
".

Section WithRuntime.
Context `{RT : Runtime}.

(** The running process: the client and its world, what was written to
    standard output and to standard error, and the log of the client
    methods called so far (a ghost field). *)
Record Process : Type := mkProcess {
  run : Client.State;
  stdout : list string;
  stderr : list string;
  calls : list Op
}.

Definition P (A : Type) : Type := Process -> Completion A * Process.

Definition retP {A} (a : A) : P A := fun p => (Normal a, p).

Definition throwP {A} (e : Error) : P A := fun p => (Abrupt e, p).

Definition bindP {A B} (m : P A) (k : A -> P B) : P B :=
  fun p =>
    match m p with
    | (Normal a, p') => k a p'
    | (Abrupt e, p') => (Abrupt e, p')
    end.

Notation "'let!' x ':=' m 'in' k" := (bindP m (fun x => k))
  (at level 10, x name, m at level 100, k at level 200).
Notation "'do!' m 'in' k" := (bindP m (fun _ => k))
  (at level 10, m at level 100, k at level 200).

(** [await client.method(...)] *)
Definition call (o : Op) : P Value :=
  fun p =>
    let '(c, st) := invoke o (run p) in
    (c, {| run := st; stdout := stdout p; stderr := stderr p;
           calls := calls p ++ [o] |}).

(** [client.isReadonly] *)
Definition readonly : P bool :=
  fun p => (Normal (isReadonly (client (run p))), p).

Definition console_log (line : string) : P unit :=
  fun p =>
    (Normal tt, {| run := run p; stdout := stdout p ++ [line];
                   stderr := stderr p; calls := calls p |}).

Definition console_error (line : string) : P unit :=
  fun p =>
    (Normal tt, {| run := run p; stdout := stdout p;
                   stderr := stderr p ++ [line]; calls := calls p |}).

Definition print (data : Value) : P unit :=
  console_log (JSON_stringify_indented data).

(** [const id = parseInt(args[2]); if (isNaN(id)) throw new Error("Invalid ID");]
    The [match] is the [isNaN] test. *)
Definition parseId (args : list string) : P Z :=
  match parseIntOf (args !! 2%nat) with
  | NaN => throwP (Error_ "Invalid ID")
  | Num id => retP id
  end.

(** [case "get"]: read the id, call the method, print the result. *)
Definition getAndPrint (args : list string) (method : Z -> Op) : P unit :=
  let! id := parseId args in
  let! v := call (method id) in
  print v.

(** [case "delete"], [case "enable"], [case "disable"]: read the id, call
    the method, print a line that names the resource and what was done. *)
Definition actAndReport (args : list string) (method : Z -> Op)
    (what done : string) : P unit :=
  let! id := parseId args in
  do! call (method id) in
  console_log (what +:+ " " +:+ idString id +:+ " " +:+ done).

(** [case "list"] *)
Definition listAndPrint (method : Op) : P unit :=
  let! v := call method in
  print v.

(** [case "create"] *)
Definition createAndPrint (args : list string)
    (input : gmap string string -> Value) (method : Value -> Op) : P unit :=
  let opts := parseArgs (drop 2 args) in
  let! v := call (method (input opts)) in
  print v.

Definition status : P unit :=
  let! health := call GetHealth in
  let! ro := readonly in
  print (Obj (setField "mcp_server"
                (Obj [("readonly", Boolean ro);
                      ("mode", Str (if ro then "readonly" else "read-write"))])
                (spread health))).

(** The body of the [try] block of [main]. *)
Definition dispatch (args : list string) : P unit :=
  let command := args !! 0%nat in
  let subcommand := args !! 1%nat in
  if strictEq command "status" then status
  else if strictEq command "proxy-hosts" then
    if strictEq subcommand "list" then listAndPrint ListProxyHosts
    else if strictEq subcommand "get" then getAndPrint args GetProxyHost
    else if strictEq subcommand "create" then
      createAndPrint args proxyHostInput CreateProxyHost
    else if strictEq subcommand "delete" then
      actAndReport args DeleteProxyHost "Proxy host" "deleted"
    else if strictEq subcommand "enable" then
      actAndReport args EnableProxyHost "Proxy host" "enabled"
    else if strictEq subcommand "disable" then
      actAndReport args DisableProxyHost "Proxy host" "disabled"
    else console_error
           "Usage: proxy-hosts [list|get|create|delete|enable|disable]"
  else if strictEq command "streams" then
    if strictEq subcommand "list" then listAndPrint ListStreams
    else if strictEq subcommand "get" then getAndPrint args GetStream
    else if strictEq subcommand "create" then
      createAndPrint args streamInput CreateStream
    else if strictEq subcommand "delete" then
      actAndReport args DeleteStream "Stream" "deleted"
    else if strictEq subcommand "enable" then
      actAndReport args EnableStream "Stream" "enabled"
    else if strictEq subcommand "disable" then
      actAndReport args DisableStream "Stream" "disabled"
    else console_error
           "Usage: streams [list|get|create|delete|enable|disable]"
  else if strictEq command "certificates" then
    if strictEq subcommand "list" then listAndPrint ListCertificates
    else if strictEq subcommand "get" then getAndPrint args GetCertificate
    else if strictEq subcommand "renew" then getAndPrint args RenewCertificate
    else if strictEq subcommand "delete" then
      actAndReport args DeleteCertificate "Certificate" "deleted"
    else console_error "Usage: certificates [list|get|renew|delete]"
  else if strictEq command "redirections" then
    if strictEq subcommand "list" then listAndPrint ListRedirectionHosts
    else if strictEq subcommand "get" then getAndPrint args GetRedirectionHost
    else if strictEq subcommand "create" then
      createAndPrint args redirectionHostInput CreateRedirectionHost
    else if strictEq subcommand "delete" then
      actAndReport args DeleteRedirectionHost "Redirection host" "deleted"
    else console_error "Usage: redirections [list|get|create|delete]"
  else if strictEq command "access-lists" then
    if strictEq subcommand "list" then listAndPrint ListAccessLists
    else if strictEq subcommand "get" then getAndPrint args GetAccessList
    else if strictEq subcommand "create" then
      createAndPrint args accessListInput CreateAccessList
    else if strictEq subcommand "delete" then
      actAndReport args DeleteAccessList "Access list" "deleted"
    else console_error "Usage: access-lists [list|get|create|delete]"
  else if strictEq command "dead-hosts" then
    if strictEq subcommand "list" then listAndPrint ListDeadHosts
    else if strictEq subcommand "get" then getAndPrint args GetDeadHost
    else if strictEq subcommand "create" then
      createAndPrint args deadHostInput CreateDeadHost
    else if strictEq subcommand "delete" then
      actAndReport args DeleteDeadHost "Dead host" "deleted"
    else console_error "Usage: dead-hosts [list|get|create|delete]"
  else if strictEq command "users" then
    if strictEq subcommand "list" then listAndPrint ListUsers
    else if strictEq subcommand "get" then getAndPrint args GetUser
    else console_error "Usage: users [list|get]"
  else console_log usage.

(** [main]: the dispatch inside [try], and the [catch] handler, which
    prints the message and exits with code 1. The result is the exit code
    of the process: 0 when [main] returns. *)
Definition main (args : list string) (p : Process) : Z * Process :=
  match dispatch args p with
  | (Normal _, p') => (0, p')
  | (Abrupt error, p') =>
      (1, {| run := run p'; stdout := stdout p';
             stderr := stderr p' ++ ["Error: " +:+ message error];
             calls := calls p' |})
  end.

(** *** Notions the statements use *)

(** The subcommands of [command] that read a numeric id from [args[2]]:
    the cases of the inner [switch] that start with [parseInt(args[2])]. *)
Definition takesId (command subcommand : string) : bool :=
  if String.eqb command "proxy-hosts" || String.eqb command "streams" then
    String.eqb subcommand "get" || String.eqb subcommand "delete"
    || String.eqb subcommand "enable" || String.eqb subcommand "disable"
  else if String.eqb command "certificates" then
    String.eqb subcommand "get" || String.eqb subcommand "renew"
    || String.eqb subcommand "delete"
  else if String.eqb command "redirections"
          || String.eqb command "access-lists"
          || String.eqb command "dead-hosts" then
    String.eqb subcommand "get" || String.eqb subcommand "delete"
  else if String.eqb command "users" then String.eqb subcommand "get"
  else false.

(** The process [p] after [line] was written to standard error. *)
Definition withError (line : string) (p : Process) : Process :=
  {| run := run p; stdout := stdout p; stderr := stderr p ++ [line];
     calls := calls p |}.

(** The client call a [create] subcommand of [command] makes for the
    options [opts]: the cases of the inner [switch] that build an input
    object. *)
Definition createCall (command : string) (opts : gmap string string)
    : option Op :=
  if String.eqb command "proxy-hosts" then
    Some (CreateProxyHost (proxyHostInput opts))
  else if String.eqb command "streams" then
    Some (CreateStream (streamInput opts))
  else if String.eqb command "redirections" then
    Some (CreateRedirectionHost (redirectionHostInput opts))
  else if String.eqb command "access-lists" then
    Some (CreateAccessList (accessListInput opts))
  else if String.eqb command "dead-hosts" then
    Some (CreateDeadHost (deadHostInput opts))
  else None.

(** *** Further notions *)

(** The client method an id-taking subcommand calls: the cases of the
    inner [switch] that start with [parseInt(args[2])]. *)
Definition idMethod (command subcommand : string) : option (Z -> Op) :=
  if String.eqb command "proxy-hosts" then
    if String.eqb subcommand "get" then Some GetProxyHost
    else if String.eqb subcommand "delete" then Some DeleteProxyHost
    else if String.eqb subcommand "enable" then Some EnableProxyHost
    else if String.eqb subcommand "disable" then Some DisableProxyHost
    else None
  else if String.eqb command "streams" then
    if String.eqb subcommand "get" then Some GetStream
    else if String.eqb subcommand "delete" then Some DeleteStream
    else if String.eqb subcommand "enable" then Some EnableStream
    else if String.eqb subcommand "disable" then Some DisableStream
    else None
  else if String.eqb command "certificates" then
    if String.eqb subcommand "get" then Some GetCertificate
    else if String.eqb subcommand "renew" then Some RenewCertificate
    else if String.eqb subcommand "delete" then Some DeleteCertificate
    else None
  else if String.eqb command "redirections" then
    if String.eqb subcommand "get" then Some GetRedirectionHost
    else if String.eqb subcommand "delete" then Some DeleteRedirectionHost
    else None
  else if String.eqb command "access-lists" then
    if String.eqb subcommand "get" then Some GetAccessList
    else if String.eqb subcommand "delete" then Some DeleteAccessList
    else None
  else if String.eqb command "dead-hosts" then
    if String.eqb subcommand "get" then Some GetDeadHost
    else if String.eqb subcommand "delete" then Some DeleteDeadHost
    else None
  else if String.eqb command "users" then
    if String.eqb subcommand "get" then Some GetUser else None
  else None.

(** The commands of the outer [switch]. *)
Definition commands : list string :=
  ["status"; "proxy-hosts"; "streams"; "certificates"; "redirections";
   "access-lists"; "dead-hosts"; "users"].

(** The process [p] after [line] was written to standard output. *)
Definition withOutput (line : string) (p : Process) : Process :=
  {| run := run p; stdout := stdout p ++ [line]; stderr := stderr p;
     calls := calls p |}.

(** The process [p] after client method [o] was called and left the
    client state [st]. *)
Definition afterCall (o : Op) (st : Client.State) (p : Process) : Process :=
  {| run := st; stdout := stdout p; stderr := stderr p;
     calls := calls p ++ [o] |}.

(** The object the [status] command prints for the health object
    [health] and the readonly flag [ro]. *)
Definition statusObject (health : Value) (ro : bool) : Value :=
  Obj (setField "mcp_server"
         (Obj [("readonly", Boolean ro);
               ("mode", Str (if ro then "readonly" else "read-write"))])
         (spread health)).

(** The subcommands the inner [switch] of a command has a case for. *)
Definition subcommandsOf (command : string) : list string :=
  if String.eqb command "proxy-hosts" || String.eqb command "streams" then
    ["list"; "get"; "create"; "delete"; "enable"; "disable"]
  else if String.eqb command "certificates" then
    ["list"; "get"; "renew"; "delete"]
  else if String.eqb command "redirections"
          || String.eqb command "access-lists"
          || String.eqb command "dead-hosts" then
    ["list"; "get"; "create"; "delete"]
  else if String.eqb command "users" then ["list"; "get"]
  else [].

(** A value [parseArgs] stores: non-empty, and not itself an option. *)
Definition goodValue (v : string) : Prop :=
  v <> EmptyString /\ startsWith v "--" = false.

(** A command body that calls at most one client method, and does
    nothing else to the client. *)
Definition OneCall (m : P unit) : Prop :=
  forall p,
    (calls (snd (m p)) = calls p /\ run (snd (m p)) = run p) \/
    exists o,
      calls (snd (m p)) = calls p ++ [o] /\
      run (snd (m p)) = snd (invoke o (run p)).

End WithRuntime.
End Cli.

(** ** The configuration block of the tool server (index.ts) *)

Module Index.
Import Client Builtin.

Definition NPM_URL (env : Cli.Env) : string :=
  orString (env !! "NPM_URL") "http://localhost:81".

Definition NPM_EMAIL (env : Cli.Env) : string :=
  orString (env !! "NPM_EMAIL") EmptyString.

Definition NPM_PASSWORD (env : Cli.Env) : string :=
  orString (env !! "NPM_PASSWORD") EmptyString.

Definition NPM_READONLY (env : Cli.Env) : bool :=
  strictEq (env !! "NPM_READONLY") "true".

(** What the module writes to standard error before the tools are
    registered, and the client it creates; [None] stands for
    [process.exit(1)]. *)
Definition startup (env : Cli.Env) : list string * option NpmApiClient :=
  if negb (truthy_string (NPM_EMAIL env))
     || negb (truthy_string (NPM_PASSWORD env)) then
    (["Error: NPM_EMAIL and NPM_PASSWORD environment variables are required"],
     None)
  else
    (if NPM_READONLY env
     then ["Nginx Proxy Manager MCP Server running in READONLY mode"]
     else [],
     Some (new {| cfg_baseUrl := NPM_URL env;
                  cfg_email := NPM_EMAIL env;
                  cfg_password := NPM_PASSWORD env;
                  cfg_readonly := Some (NPM_READONLY env) |})).

(** *** The tools

    Each [server.tool(name, description, schema, handler)] registers a
    handler; the SDK validates the arguments against the schema, fills in
    the defaults, and calls the handler with the result. A [Tool] is a call
    of a handler: the tool and those validated arguments, ids being
    integers. For [update_proxy_host], whose handler takes
    [{ id, ...params }], they are the id and the object of the other
    properties. *)

(** The line feed character, as a one-character string. *)
Definition newline : string := String (ascii_of_nat 10) EmptyString.

(** What a handler returns: the text of its one content item, and the
    [isError] flag ([false] when the property is absent). *)
Record ToolResult : Type := mkToolResult {
  resultText : string;
  isError : bool
}.

Inductive Tool : Type :=
| list_proxy_hosts
| get_proxy_host (id : Z)
| create_proxy_host (params : Value)
| update_proxy_host (id : Z) (params : Value)
| delete_proxy_host (id : Z)
| enable_proxy_host (id : Z)
| disable_proxy_host (id : Z)
| list_streams
| create_stream (params : Value)
| delete_stream (id : Z)
| enable_stream (id : Z)
| disable_stream (id : Z)
| list_redirection_hosts
| create_redirection_host (params : Value)
| delete_redirection_host (id : Z)
| list_certificates
| get_certificate (id : Z)
| renew_certificate (id : Z)
| delete_certificate (id : Z)
| list_access_lists
| create_access_list (params : Value)
| delete_access_list (id : Z)
| list_dead_hosts
| create_dead_host (params : Value)
| delete_dead_host (id : Z)
| list_users
| get_status.

(** The name the tool is registered under. *)
Definition toolName (t : Tool) : string :=
  match t with
  | list_proxy_hosts => "list_proxy_hosts"
  | get_proxy_host _ => "get_proxy_host"
  | create_proxy_host _ => "create_proxy_host"
  | update_proxy_host _ _ => "update_proxy_host"
  | delete_proxy_host _ => "delete_proxy_host"
  | enable_proxy_host _ => "enable_proxy_host"
  | disable_proxy_host _ => "disable_proxy_host"
  | list_streams => "list_streams"
  | create_stream _ => "create_stream"
  | delete_stream _ => "delete_stream"
  | enable_stream _ => "enable_stream"
  | disable_stream _ => "disable_stream"
  | list_redirection_hosts => "list_redirection_hosts"
  | create_redirection_host _ => "create_redirection_host"
  | delete_redirection_host _ => "delete_redirection_host"
  | list_certificates => "list_certificates"
  | get_certificate _ => "get_certificate"
  | renew_certificate _ => "renew_certificate"
  | delete_certificate _ => "delete_certificate"
  | list_access_lists => "list_access_lists"
  | create_access_list _ => "create_access_list"
  | delete_access_list _ => "delete_access_list"
  | list_dead_hosts => "list_dead_hosts"
  | create_dead_host _ => "create_dead_host"
  | delete_dead_host _ => "delete_dead_host"
  | list_users => "list_users"
  | get_status => "get_status"
  end.

(** The object literal the handler of [create_proxy_host] builds from
    its arguments. *)
Definition proxyHostFields (params : Value) : Value :=
  Obj [("domain_names", getField params "domain_names");
       ("forward_host", getField params "forward_host");
       ("forward_port", getField params "forward_port");
       ("forward_scheme", getField params "forward_scheme");
       ("ssl_forced", getField params "ssl_forced");
       ("allow_websocket_upgrade", getField params "allow_websocket_upgrade");
       ("block_exploits", getField params "block_exploits");
       ("caching_enabled", getField params "caching_enabled");
       ("http2_support", getField params "http2_support");
       ("hsts_enabled", getField params "hsts_enabled");
       ("certificate_id", getField params "certificate_id");
       ("access_list_id", getField params "access_list_id");
       ("advanced_config", getField params "advanced_config")].

(** The client method the handler of the tool calls. *)
Definition toolOp (t : Tool) : Op :=
  match t with
  | list_proxy_hosts => ListProxyHosts
  | get_proxy_host id => GetProxyHost id
  | create_proxy_host params => CreateProxyHost (proxyHostFields params)
  | update_proxy_host id params => UpdateProxyHost id params
  | delete_proxy_host id => DeleteProxyHost id
  | enable_proxy_host id => EnableProxyHost id
  | disable_proxy_host id => DisableProxyHost id
  | list_streams => ListStreams
  | create_stream params => CreateStream params
  | delete_stream id => DeleteStream id
  | enable_stream id => EnableStream id
  | disable_stream id => DisableStream id
  | list_redirection_hosts => ListRedirectionHosts
  | create_redirection_host params => CreateRedirectionHost params
  | delete_redirection_host id => DeleteRedirectionHost id
  | list_certificates => ListCertificates
  | get_certificate id => GetCertificate id
  | renew_certificate id => RenewCertificate id
  | delete_certificate id => DeleteCertificate id
  | list_access_lists => ListAccessLists
  | create_access_list params => CreateAccessList params
  | delete_access_list id => DeleteAccessList id
  | list_dead_hosts => ListDeadHosts
  | create_dead_host params => CreateDeadHost params
  | delete_dead_host id => DeleteDeadHost id
  | list_users => ListUsers
  | get_status => GetHealth
  end.

Section WithRuntime.
Context `{RT : Runtime}.

(** The [catch] block every handler has. *)
Definition errorResult (error : Error) : ToolResult :=
  {| resultText := "Error: " +:+ message error; isError := true |}.

(** The shape every handler has: call the client method inside [try],
    render the value it returns, and turn what it throws into an error
    result. *)
Definition respond (o : Op) (render : Value -> string)
    (st : Client.State) : ToolResult * Client.State :=
  match invoke o st with
  | (Normal v, st') => ({| resultText := render v; isError := false |}, st')
  | (Abrupt error, st') => (errorResult error, st')
  end.

(** [`${title}\n${JSON.stringify(v, null, 2)}`] *)
Definition titled (title : string) (v : Value) : string :=
  title +:+ newline +:+ JSON_stringify_indented v.

(** The handler of [get_status]: the flag is read after the call. *)
Definition status (st : Client.State) : ToolResult * Client.State :=
  match invoke GetHealth st with
  | (Normal health, st') =>
      ({| resultText :=
            JSON_stringify_indented
              (Cli.statusObject health (isReadonly (client st')));
          isError := false |}, st')
  | (Abrupt error, st') => (errorResult error, st')
  end.

(** Calling the handler of a tool. *)
Definition callTool (t : Tool) : Client.State -> ToolResult * Client.State :=
  match t with
  | list_proxy_hosts =>
      respond ListProxyHosts
        JSON_stringify_indented
  | get_proxy_host id =>
      respond (GetProxyHost id)
        JSON_stringify_indented
  | create_proxy_host params =>
      respond (CreateProxyHost (proxyHostFields params))
        (titled "Proxy host created successfully:")
  | update_proxy_host id params =>
      respond (UpdateProxyHost id params)
        (titled "Proxy host updated successfully:")
  | delete_proxy_host id =>
      respond (DeleteProxyHost id)
        (fun _ => "Proxy host " +:+ idString id +:+ " deleted successfully")
  | enable_proxy_host id =>
      respond (EnableProxyHost id)
        (fun _ => "Proxy host " +:+ idString id +:+ " enabled successfully")
  | disable_proxy_host id =>
      respond (DisableProxyHost id)
        (fun _ => "Proxy host " +:+ idString id +:+ " disabled successfully")
  | list_streams =>
      respond ListStreams
        JSON_stringify_indented
  | create_stream params =>
      respond (CreateStream params)
        (titled "Stream created successfully:")
  | delete_stream id =>
      respond (DeleteStream id)
        (fun _ => "Stream " +:+ idString id +:+ " deleted successfully")
  | enable_stream id =>
      respond (EnableStream id)
        (fun _ => "Stream " +:+ idString id +:+ " enabled successfully")
  | disable_stream id =>
      respond (DisableStream id)
        (fun _ => "Stream " +:+ idString id +:+ " disabled successfully")
  | list_redirection_hosts =>
      respond ListRedirectionHosts
        JSON_stringify_indented
  | create_redirection_host params =>
      respond (CreateRedirectionHost params)
        (titled "Redirection host created successfully:")
  | delete_redirection_host id =>
      respond (DeleteRedirectionHost id)
        (fun _ => "Redirection host " +:+ idString id +:+ " deleted successfully")
  | list_certificates =>
      respond ListCertificates
        JSON_stringify_indented
  | get_certificate id =>
      respond (GetCertificate id)
        JSON_stringify_indented
  | renew_certificate id =>
      respond (RenewCertificate id)
        (titled "Certificate renewed successfully:")
  | delete_certificate id =>
      respond (DeleteCertificate id)
        (fun _ => "Certificate " +:+ idString id +:+ " deleted successfully")
  | list_access_lists =>
      respond ListAccessLists
        JSON_stringify_indented
  | create_access_list params =>
      respond (CreateAccessList params)
        (titled "Access list created successfully:")
  | delete_access_list id =>
      respond (DeleteAccessList id)
        (fun _ => "Access list " +:+ idString id +:+ " deleted successfully")
  | list_dead_hosts =>
      respond ListDeadHosts
        JSON_stringify_indented
  | create_dead_host params =>
      respond (CreateDeadHost params)
        (titled "Dead host created successfully:")
  | delete_dead_host id =>
      respond (DeleteDeadHost id)
        (fun _ => "Dead host " +:+ idString id +:+ " deleted successfully")
  | list_users =>
      respond ListUsers
        JSON_stringify_indented
  | get_status => status
  end.

(** The tools that the README lists as blocked in readonly mode, by
    name: [create_*], [update_*], [delete_*], [enable_*], [disable_*] and
    [renew_certificate]. *)
Definition writeTool (t : Tool) : bool :=
  let n := toolName t in
  startsWith n "create_" || startsWith n "update_" || startsWith n "delete_"
  || startsWith n "enable_" || startsWith n "disable_"
  || String.eqb n "renew_certificate".

End WithRuntime.

End Index.

(** ** A scripted runtime

    A runtime for running the model on concrete inputs. The remote service
    answers the requests it gets with the replies of a script, in order;
    bodies are decoded by looking them up in a table of the values the
    scripts use, printed by [stringify]; dates are written as a number of
    milliseconds. *)

Module Scripted.

Record ScriptedWorld : Type := mkWorld {
  clock : Z;
  script : list (Completion Response)
}.

Definition scriptedFetch (w : ScriptedWorld) (r : Request)
    : Completion Response * ScriptedWorld :=
  match script w with
  | [] => (Abrupt {| name := "TypeError"; message := "fetch failed" |}, w)
  | reply :: rest => (reply, {| clock := clock w; script := rest |})
  end.

(** [pieces] joined with commas. *)
Fixpoint joinComma (pieces : list string) : string :=
  match pieces with
  | [] => EmptyString
  | [piece] => piece
  | piece :: rest => piece +:+ "," +:+ joinComma rest
  end.

(** A plain serializer: no escapes, properties that are [undefined] are
    left out. *)
Fixpoint stringify (v : Value) : string :=
  match v with
  | Undefined => "undefined"
  | Null => "null"
  | Boolean b => if b then "true" else "false"
  | Numeric NaN => "null"
  | Numeric (Num z) => pretty z
  | Str s => dquote +:+ s +:+ dquote
  | Arr items =>
      "[" +:+ joinComma ((fix each (l : list Value) : list string :=
                            match l with
                            | [] => []
                            | x :: rest => stringify x :: each rest
                            end) items) +:+ "]"
  | Obj fields =>
      "{" +:+ joinComma
                ((fix each (l : list (string * Value)) : list string :=
                    match l with
                    | [] => []
                    | (k, Undefined) :: rest => each rest
                    | (k, x) :: rest =>
                        (dquote +:+ k +:+ dquote +:+ ":" +:+ stringify x)
                        :: each rest
                    end) fields) +:+ "}"
  end.

(** The values the scripted service sends. *)
Definition tokenValue (tok : string) : Value :=
  Obj [("token", Str tok); ("expires", Str "5000")].

Definition errorValue : Value := Obj [("error", Str "boom")].

Definition known : list Value :=
  [tokenValue "abc"; tokenValue EmptyString; errorValue; Arr []].

Fixpoint lookupBody (text : string) (values : list Value)
    : Completion Value :=
  match values with
  | [] => Abrupt {| name := "SyntaxError"; message := "Unexpected token" |}
  | v :: rest =>
      if String.eqb (stringify v) text then Normal v
      else lookupBody text rest
  end.

Definition stringField (k : string) (v : Value) : string :=
  match Builtin.getField v k with
  | Str s => s
  | _ => EmptyString
  end.

Definition viewToken (v : Value) : TokenResponse :=
  {| tr_token := stringField "token" v;
     tr_expires := stringField "expires" v |}.

Definition parseDate (s : string) : Date :=
  match Builtin.parseInt s with
  | NaN => InvalidDate
  | Num ms => TimeValue ms
  end.

#[export] Instance runtime : Runtime := {|
  World := ScriptedWorld;
  fetch := scriptedFetch;
  Date_now := clock;
  Date_parse := parseDate;
  JSON_parse := fun text => lookupBody text known;
  JSON_stringify := stringify;
  JSON_stringify_indented := stringify;
  asTokenResponse := viewToken
|}.

Definition reply (status : Z) (text : string) : Completion Response :=
  Normal {| status := status; text := text |}.

(** Replies of the scripted service: a token [abc] that expires at 5000,
    an empty token that expires at 5000, an empty list, an error body. *)
Definition tokenReply : Completion Response :=
  reply 200 (stringify (tokenValue "abc")).

Definition emptyTokenReply : Completion Response :=
  reply 200 (stringify (tokenValue EmptyString)).

Definition listReply : Completion Response := reply 200 (stringify (Arr [])).

Definition errorReply (status : Z) : Completion Response :=
  reply status (stringify errorValue).

(** A fresh client for [http://npm:81] in a world whose clock reads [t]
    and whose service follows [replies]. *)
Definition start (readonly : bool) (t : Z)
    (replies : list (Completion Response)) : Client.State :=
  {| Client.client :=
       Client.new {| Client.cfg_baseUrl := "http://npm:81";
                     Client.cfg_email := "admin@example.com";
                     Client.cfg_password := "changeme";
                     Client.cfg_readonly := Some readonly |};
     Client.world := {| clock := t; script := replies |};
     Client.sent := [] |}.

(** A process around a client state, nothing printed and nothing called
    yet. *)
Definition process (st : Client.State) : Cli.Process :=
  {| Cli.run := st; Cli.stdout := []; Cli.stderr := []; Cli.calls := [] |}.

(** An environment with the credentials, and with [NPM_READONLY] set to
    "TRUE", which is not the string "true". *)
Definition shoutingEnv : Cli.Env :=
  <["NPM_EMAIL" := "admin@example.com"]>
    (<["NPM_PASSWORD" := "changeme"]>
       (<["NPM_READONLY" := "TRUE"]> ∅)).

End Scripted.

(** * Properties *)

(** ** Strings *)

Module StringFacts.

Lemma prefix_app (s t : string) : String.prefix s (s +:+ t) = true.
Proof.
  induction s as [|a s IH].
  - change (EmptyString +:+ t) with t. by destruct t.
  - change (String a s +:+ t) with (String a (s +:+ t)).
    cbn [String.prefix]. by destruct (Ascii.ascii_dec a a).
Qed.

Lemma includes_prefix (s needle : string) :
  String.prefix needle s = true -> includes s needle = true.
Proof. intros H. destruct s; cbn [includes]; by rewrite H. Qed.

Lemma includes_app (p s q : string) : includes (p +:+ s +:+ q) s = true.
Proof.
  induction p as [|a p IH].
  - change (EmptyString +:+ s +:+ q) with (s +:+ q).
    apply includes_prefix, prefix_app.
  - change (String a p +:+ s +:+ q) with (String a (p +:+ s +:+ q)).
    cbn [includes]. rewrite IH. apply orb_true_r.
Qed.

Lemma includes_app_r (p t s : string) :
  includes t s = true -> includes (p +:+ t) s = true.
Proof.
  intros H. induction p as [|a p IH]; [exact H|].
  change (String a p +:+ t) with (String a (p +:+ t)).
  cbn [includes]. rewrite IH. apply orb_true_r.
Qed.

Lemma app_empty_r (s : string) : s +:+ EmptyString = s.
Proof.
  induction s as [|a s IH]; [done|].
  change (String a s +:+ EmptyString) with (String a (s +:+ EmptyString)).
  by rewrite IH.
Qed.

Lemma string_app_assoc (s t u : string) : (s +:+ t) +:+ u = s +:+ t +:+ u.
Proof.
  induction s as [|a s IH]; [done|].
  change ((String a s +:+ t) +:+ u) with (String a ((s +:+ t) +:+ u)).
  by rewrite IH.
Qed.

Lemma string_app_length (s t : string) :
  String.length (s +:+ t) = (String.length s + String.length t)%nat.
Proof.
  induction s as [|a s IH]; [done|].
  change (String a s +:+ t) with (String a (s +:+ t)).
  cbn [String.length]. by rewrite IH.
Qed.

Lemma includes_self (s : string) : includes s s = true.
Proof.
  apply includes_prefix. rewrite <- (app_empty_r s) at 2. apply prefix_app.
Qed.

Lemma truthy_string_true (s : string) :
  truthy_string s = true <-> s <> EmptyString.
Proof.
  unfold truthy_string. rewrite negb_true_iff. apply String.eqb_neq.
Qed.

Lemma eqb_refl (s : string) : String.eqb s s = true.
Proof. by apply String.eqb_eq. Qed.

End StringFacts.

(** ** Built-in functions on small inputs *)

Module BuiltinFacts.
Import Builtin.

Example parseInt_digits : parseInt "42" = Num 42.
Proof. reflexivity. Qed.

Example parseInt_prefix : parseInt "  3000px" = Num 3000.
Proof. reflexivity. Qed.

Example parseInt_negative_hex : parseInt "-0x1F" = Num (-31).
Proof. reflexivity. Qed.

Example parseInt_letters : parseInt "abc" = NaN.
Proof. reflexivity. Qed.

Example parseInt_empty : parseInt EmptyString = NaN.
Proof. reflexivity. Qed.

Example parseInt_undefined : parseIntOf None = NaN.
Proof. reflexivity. Qed.

Example orNumber_zero : orNumber (parseInt "0") 80 = Num 80.
Proof. reflexivity. Qed.

Example split_domains :
  split "," "a.example.com,b.example.com"
  = ["a.example.com"; "b.example.com"].
Proof. reflexivity. Qed.

Example split_empty : split "," EmptyString = [EmptyString].
Proof. reflexivity. Qed.

Example stripTrailingSlash_one :
  Client.stripTrailingSlash "http://npm:81/" = "http://npm:81".
Proof. reflexivity. Qed.

Example stripTrailingSlash_two :
  Client.stripTrailingSlash "http://npm:81//" = "http://npm:81/".
Proof. reflexivity. Qed.

Example parseArgs_flags :
  map_to_list (Cli.parseArgs ["--domains"; "a.com"; "--ssl-forced";
                              "--forward-port"; "3000"])
  = [("ssl-forced", "true"); ("forward-port", "3000"); ("domains", "a.com")].
Proof. vm_compute. reflexivity. Qed.

End BuiltinFacts.

(** ** The client *)

Module ClientFacts.
Import Client StringFacts.

Section WithRuntime.
Context `{RT : Runtime}.

Ltac unfold_client :=
  unfold request, ensureToken, authenticate, assertWritable, decode, json,
    doFetch, storeToken, this, now, bind, ret, throw in *.

(** Every method but [getHealth] is its call of [request], behind the
    guard if it is a mutating method. *)
Lemma invoke_shape (o : Op) (m p : string) (b : Value) :
  requestOf o = Some (m, p, b) ->
  invoke o = guarded o (finish o (request m p b)).
Proof. destruct o; intros E; simplify_eq/=; reflexivity. Qed.

Lemma requestOf_None (o : Op) : requestOf o = None -> o = GetHealth.
Proof. by destruct o. Qed.

Lemma mutating_requestOf (o : Op) :
  mutating o = true -> exists m p b, requestOf o = Some (m, p, b).
Proof. destruct o; intros E; simplify_eq/=; eauto. Qed.

(** The guard throws in readonly mode, and does nothing otherwise. *)
Lemma assertWritable_readonly (operation : string) (st : State) :
  _readonly (client st) = true ->
  assertWritable operation st = (Abrupt (ReadonlyModeError operation), st).
Proof. intros E. unfold_client. by rewrite E. Qed.

Lemma assertWritable_writable (operation : string) (st : State) :
  _readonly (client st) = false ->
  assertWritable operation st = (Normal tt, st).
Proof. intros E. unfold_client. by rewrite E. Qed.

Lemma guarded_writable (o : Op) (body : M Value) (st : State) :
  mutating o = false \/ _readonly (client st) = false ->
  guarded o body st = body st.
Proof.
  intros H. unfold guarded. destruct (mutating o) eqn:E; [|done].
  destruct H as [H|H]; [done|].
  unfold bind. by rewrite assertWritable_writable.
Qed.

(** The message of a [ReadonlyModeError] names the operation and says
    "readonly mode". *)
Lemma ReadonlyModeError_operation (operation : string) :
  includes (message (ReadonlyModeError operation)) operation = true.
Proof.
  exact (includes_app ("Operation " +:+ dquote) operation
           (dquote +:+ " is not allowed in readonly mode")).
Qed.

Lemma ReadonlyModeError_phrase (operation : string) :
  includes (message (ReadonlyModeError operation)) "readonly mode" = true.
Proof.
  unfold ReadonlyModeError; cbn [message].
  do 3 apply includes_app_r. by vm_compute.
Qed.

(** *** Computations that do not read the readonly flag *)

Lemma blind_ret {A} (a : A) : FlagBlind (ret a).
Proof. done. Qed.

Lemma blind_throw {A} (e : Error) : FlagBlind (throw (A:=A) e).
Proof. done. Qed.

Lemma blind_now : FlagBlind now.
Proof. done. Qed.

Lemma blind_json (r : Response) : FlagBlind (json r).
Proof. done. Qed.

Lemma blind_storeToken (t : string) (d : Date) : FlagBlind (storeToken t d).
Proof. done. Qed.

Lemma blind_doFetch (r : Request) : FlagBlind (doFetch r).
Proof.
  intros flag st. unfold doFetch, withReadonly; simpl.
  by destruct (fetch (world st) r).
Qed.

Lemma blind_bind {A B} (m : M A) (k : A -> M B) :
  FlagBlind m -> (forall a, FlagBlind (k a)) -> FlagBlind (bind m k).
Proof.
  intros Hm Hk flag st. unfold bind. rewrite Hm.
  destruct (m st) as [[a|e] st']; simpl; [apply Hk|done].
Qed.

(** Reading [this] is fine as long as the flag of what was read is not
    looked at. *)
Lemma blind_this {B} (k : NpmApiClient -> M B) :
  (forall flag c st, k (setReadonly flag c) st = k c st) ->
  (forall c, FlagBlind (k c)) ->
  FlagBlind (bind this k).
Proof.
  intros Hk Hb flag st. unfold bind, this.
  change (client (withReadonly flag st))
    with (setReadonly flag (client st)).
  rewrite Hk. apply Hb.
Qed.

Lemma blind_decode (r : Response) : FlagBlind (decode r).
Proof.
  unfold decode. destruct (negb (ok r)); [apply blind_throw|].
  destruct (status r =? 204); [apply blind_ret|apply blind_json].
Qed.

Lemma blind_authenticate : FlagBlind authenticate.
Proof.
  unfold authenticate. apply blind_this; [done|]. intros c.
  apply blind_bind; [apply blind_doFetch|]. intros r.
  destruct (negb (ok r)); [apply blind_throw|].
  apply blind_bind; [apply blind_json|]. intros data.
  apply blind_bind; [apply blind_storeToken|]. intros _. apply blind_ret.
Qed.

Lemma blind_ensureToken : FlagBlind ensureToken.
Proof.
  unfold ensureToken. apply blind_this; [done|]. intros c.
  apply blind_bind; [apply blind_now|]. intros t.
  destruct (cachedToken c t); [apply blind_ret|apply blind_authenticate].
Qed.

Lemma blind_request (m p : string) (b : Value) : FlagBlind (request m p b).
Proof.
  unfold request. apply blind_bind; [apply blind_ensureToken|]. intros tok.
  apply blind_this; [done|]. intros c.
  apply blind_bind; [apply blind_doFetch|]. intros r. apply blind_decode.
Qed.

Lemma blind_getHealth : FlagBlind getHealth.
Proof.
  unfold getHealth. apply blind_this; [done|]. intros c.
  apply blind_bind; [apply blind_doFetch|]. intros r. apply blind_json.
Qed.

(** C1. A mutating method called on a readonly client throws a
    [ReadonlyModeError] whose message contains the method's name and the
    words "readonly mode", and leaves the state as it was: nothing is sent,
    neither a token request nor the resource request. The mutating methods
    are the twenty-five the specification lists. The other methods are the
    [list*] and [get*] ones ([getHealth] among them), and what they do does
    not depend on the readonly flag. *)
Theorem readonly_guard :
  (forall o, mutating o = true <-> In (opName o) mutatingNames) /\
  (forall o st,
     mutating o = true -> _readonly (client st) = true ->
     exists e,
       invoke o st = (Abrupt e, st) /\
       name e = "ReadonlyModeError" /\
       includes (message e) (opName o) = true /\
       includes (message e) "readonly mode" = true) /\
  (forall o,
     mutating o = false <->
     startsWith (opName o) "list" || startsWith (opName o) "get" = true) /\
  (forall o flag st,
     mutating o = false ->
     invoke o (withReadonly flag st)
     = (fst (invoke o st), withReadonly flag (snd (invoke o st)))).
Proof.
  split; [|split; [|split]].
  - intros o. unfold mutatingNames. destruct o; simpl; split; intros H;
      try done; try (repeat (first [left; reflexivity | right])); exfalso;
      repeat (destruct H as [H|H]; [discriminate H|]); exact H.
  - intros o st Hm Hro.
    destruct (mutating_requestOf o Hm) as (m & p & b & Hreq).
    exists (ReadonlyModeError (opName o)).
    rewrite (invoke_shape o m p b Hreq). unfold guarded. rewrite Hm.
    unfold bind. rewrite (assertWritable_readonly _ _ Hro).
    split; [done|]. split; [done|]. split.
    + apply ReadonlyModeError_operation.
    + apply ReadonlyModeError_phrase.
  - intros o. destruct o; simpl; split; intros H; try done;
      vm_compute in H; try discriminate H; vm_compute; reflexivity.
  - intros o flag st Hm.
    destruct (requestOf o) as [[[m p] b]|] eqn:Hreq.
    + rewrite (invoke_shape o m p b Hreq). unfold guarded. rewrite Hm.
      assert (returnsVoid o = false) as Hv by (by destruct o).
      unfold finish. rewrite Hv. apply blind_request.
    + rewrite (requestOf_None o Hreq). apply blind_getHealth.
Qed.

(** *** Computations that keep the configuration *)

Lemma sameConfig_refl (c : NpmApiClient) : sameConfig c c.
Proof. by repeat split. Qed.

Lemma sameConfig_trans (c1 c2 c3 : NpmApiClient) :
  sameConfig c1 c2 -> sameConfig c2 c3 -> sameConfig c1 c3.
Proof.
  intros (?&?&?&?) (?&?&?&?). repeat split; etrans; eassumption.
Qed.

Lemma keeps_pure {A} (m : M A) :
  (forall st, client (snd (m st)) = client st) -> KeepsConfig m.
Proof. intros H st. rewrite H. apply sameConfig_refl. Qed.

Lemma keeps_bind {A B} (m : M A) (k : A -> M B) :
  KeepsConfig m -> (forall a, KeepsConfig (k a)) -> KeepsConfig (bind m k).
Proof.
  intros Hm Hk st. unfold bind. specialize (Hm st).
  destruct (m st) as [[a|e] st']; simpl in *; [|done].
  eapply sameConfig_trans; [exact Hm|apply Hk].
Qed.

Lemma keeps_doFetch (r : Request) : KeepsConfig (doFetch r).
Proof.
  apply keeps_pure. intros st. unfold doFetch.
  by destruct (fetch (world st) r).
Qed.

Lemma keeps_storeToken (t : string) (d : Date) : KeepsConfig (storeToken t d).
Proof. intros st. by repeat split. Qed.

Lemma keeps_decode (r : Response) : KeepsConfig (decode r).
Proof. apply keeps_pure. intros st. unfold decode. by repeat case_match. Qed.

Lemma keeps_assertWritable (operation : string) :
  KeepsConfig (assertWritable operation).
Proof.
  apply keeps_pure. intros st. unfold_client. by case_match.
Qed.

Lemma keeps_authenticate : KeepsConfig authenticate.
Proof.
  unfold authenticate. apply keeps_bind; [by apply keeps_pure|]. intros c.
  apply keeps_bind; [apply keeps_doFetch|]. intros r.
  destruct (negb (ok r)); [by apply keeps_pure|].
  apply keeps_bind; [by apply keeps_pure|]. intros data.
  apply keeps_bind; [apply keeps_storeToken|]. intros _. by apply keeps_pure.
Qed.

Lemma keeps_ensureToken : KeepsConfig ensureToken.
Proof.
  unfold ensureToken. apply keeps_bind; [by apply keeps_pure|]. intros c.
  apply keeps_bind; [by apply keeps_pure|]. intros t.
  destruct (cachedToken c t); [by apply keeps_pure|apply keeps_authenticate].
Qed.

Lemma keeps_request (m p : string) (b : Value) : KeepsConfig (request m p b).
Proof.
  unfold request. apply keeps_bind; [apply keeps_ensureToken|]. intros tok.
  apply keeps_bind; [by apply keeps_pure|]. intros c.
  apply keeps_bind; [apply keeps_doFetch|]. intros r. apply keeps_decode.
Qed.

Lemma keeps_getHealth : KeepsConfig getHealth.
Proof.
  unfold getHealth. apply keeps_bind; [by apply keeps_pure|]. intros c.
  apply keeps_bind; [apply keeps_doFetch|]. intros r. by apply keeps_pure.
Qed.

Lemma keeps_invoke (o : Op) : KeepsConfig (invoke o).
Proof.
  destruct (requestOf o) as [[[m p] b]|] eqn:Hreq.
  - rewrite (invoke_shape o m p b Hreq). unfold guarded, finish.
    pose proof (keeps_request m p b) as Hr.
    assert (KeepsConfig (if returnsVoid o
                         then bind (request m p b) (fun _ => ret Undefined)
                         else request m p b)) as Hf.
    { destruct (returnsVoid o); [|done].
      apply keeps_bind; [done|]. intros _. by apply keeps_pure. }
    destruct (mutating o); [|done].
    apply keeps_bind; [apply keeps_assertWritable|]. by intros _.
  - rewrite (requestOf_None o Hreq). apply keeps_getHealth.
Qed.

(** *** What [ensureToken] and [request] do, case by case *)

Lemma ensureToken_cached (st : State) (tok : string) :
  cachedToken (client st) (Date_now (world st)) = Some tok ->
  ensureToken st = (Normal tok, st).
Proof. intros E. unfold ensureToken, bind, this, now. by rewrite E. Qed.

Lemma ensureToken_uncached (st : State) :
  cachedToken (client st) (Date_now (world st)) = None ->
  ensureToken st = authenticate st.
Proof. intros E. unfold ensureToken, bind, this, now. by rewrite E. Qed.

Lemma authenticate_eq (st : State) :
  authenticate st =
  let r := tokenRequest (client st) in
  match fetch (world st) r with
  | (Abrupt e, w) => (Abrupt e, afterFetch st r w)
  | (Normal response, w) =>
      if ok response then
        match JSON_parse (text response) with
        | Normal data =>
            (Normal (tr_token (asTokenResponse data)),
             {| client := withToken (asTokenResponse data) (client st);
                world := w; sent := sent st ++ [r] |})
        | Abrupt e => (Abrupt e, afterFetch st r w)
        end
      else
        (Abrupt (Error_ ("Authentication failed: " +:+ text response)),
         afterFetch st r w)
  end.
Proof.
  unfold_client. cbn zeta.
  destruct (fetch (world st) (tokenRequest (client st))) as [[resp|e] w];
    [|done].
  destruct (ok resp); cbn [negb]; [|done].
  by destruct (JSON_parse (text resp)).
Qed.

Lemma decode_eq (response : Response) (st : State) :
  decode response st =
  (if ok response then
     if status response =? 204 then Normal emptyObject
     else JSON_parse (text response)
   else Abrupt (Error_ ("API request failed: " +:+ pretty (status response)
                        +:+ " - " +:+ text response)),
   st).
Proof.
  unfold decode. destruct (ok response); cbn [negb]; [|done].
  by destruct (status response =? 204).
Qed.

Lemma request_with_token (m p : string) (b : Value) (st st1 : State)
    (tok : string) :
  ensureToken st = (Normal tok, st1) ->
  request m p b st =
  let r := resourceRequest (client st1) tok m p b in
  match fetch (world st1) r with
  | (Normal response, w) => decode response (afterFetch st1 r w)
  | (Abrupt e, w) => (Abrupt e, afterFetch st1 r w)
  end.
Proof.
  intros E. unfold request, bind at 1. rewrite E.
  unfold bind, this, doFetch. cbn zeta.
  by destruct (fetch (world st1) (resourceRequest (client st1) tok m p b))
    as [[resp|e] w].
Qed.

Lemma request_without_token (m p : string) (b : Value) (st st1 : State)
    (e : Error) :
  ensureToken st = (Abrupt e, st1) ->
  request m p b st = (Abrupt e, st1).
Proof. intros E. unfold request, bind at 1. by rewrite E. Qed.

Lemma invoke_admitted (o : Op) (m p : string) (b : Value) (st : State) :
  requestOf o = Some (m, p, b) -> admitted o st ->
  invoke o st = finish o (request m p b) st.
Proof.
  intros Hreq Hadm. rewrite (invoke_shape o m p b Hreq).
  by apply guarded_writable.
Qed.

Lemma finish_normal (o : Op) (body : M Value) (st st' : State) (v : Value) :
  body st = (Normal v, st') ->
  finish o body st = (Normal (if returnsVoid o then Undefined else v), st').
Proof.
  intros E. unfold finish. destruct (returnsVoid o); [|done].
  unfold bind. by rewrite E.
Qed.

Lemma finish_abrupt (o : Op) (body : M Value) (st st' : State) (e : Error) :
  body st = (Abrupt e, st') -> finish o body st = (Abrupt e, st').
Proof.
  intros E. unfold finish. destruct (returnsVoid o); [|done].
  unfold bind. by rewrite E.
Qed.

Lemma finish_state (o : Op) (body : M Value) (st : State) :
  snd (finish o body st) = snd (body st).
Proof.
  unfold finish. destruct (returnsVoid o); [|done].
  unfold bind. by destruct (body st) as [[v|e] st'].
Qed.

Lemma sent_request_with_token (m p : string) (b : Value) (st st1 : State)
    (tok : string) :
  ensureToken st = (Normal tok, st1) ->
  sent (snd (request m p b st))
  = sent st1 ++ [resourceRequest (client st1) tok m p b].
Proof.
  intros E. rewrite (request_with_token m p b st st1 tok E). cbn zeta.
  destruct (fetch (world st1) (resourceRequest (client st1) tok m p b))
    as [[resp|e] w]; [|done].
  by rewrite decode_eq.
Qed.

Lemma sent_authenticate (st : State) :
  sent (snd (authenticate st)) = sent st ++ [tokenRequest (client st)].
Proof.
  rewrite authenticate_eq. cbn zeta.
  destruct (fetch (world st) (tokenRequest (client st))) as [[resp|e] w];
    [|done].
  destruct (ok resp); [|done]. by destruct (JSON_parse (text resp)).
Qed.

Lemma admitted_dec (o : Op) (st : State) :
  mutating o && _readonly (client st) = false -> admitted o st.
Proof.
  unfold admitted. destruct (mutating o), (_readonly (client st)); auto.
Qed.

(** The requests a call sends are those [requestsOf] lists. *)
Lemma sent_invoke (o : Op) (st : State) :
  sent (snd (invoke o st)) = sent st ++ requestsOf o st.
Proof.
  unfold requestsOf.
  destruct (requestOf o) as [[[m p] b]|] eqn:Hreq.
  - destruct (mutating o && _readonly (client st)) eqn:Hblock.
    + apply andb_true_iff in Hblock as [Hm Hro].
      rewrite (invoke_shape o m p b Hreq). unfold guarded. rewrite Hm.
      unfold bind. rewrite (assertWritable_readonly _ _ Hro).
      by rewrite app_nil_r.
    + rewrite (invoke_admitted o m p b st Hreq (admitted_dec o st Hblock)).
      rewrite finish_state.
      destruct (cachedToken (client st) (Date_now (world st)))
        as [tok|] eqn:Hc.
      * by rewrite (sent_request_with_token m p b st st tok
                      (ensureToken_cached st tok Hc)).
      * pose proof (ensureToken_uncached st Hc) as Hen.
        pose proof (sent_authenticate st) as Hsent.
        destruct (authenticate st) as [[tok|e] st1] eqn:Hauth.
        -- rewrite (sent_request_with_token m p b st st1 tok Hen).
           cbn [snd] in Hsent. rewrite Hsent. by rewrite <- app_assoc.
        -- rewrite (request_without_token m p b st st1 e Hen).
           exact Hsent.
  - rewrite (requestOf_None o Hreq). unfold invoke, getHealth.
    unfold_client.
    by destruct (fetch (world st) (healthRequest (client st)))
      as [[resp|e] w].
Qed.

(** C5 (as the code has it). When the guard lets a method through, a
    token is at hand and the remote endpoint answers the resource request
    with status 204, [request] returns the empty object without decoding
    the body, whatever [response.json()] would make of it. The method
    returns that empty object, unless it is one of the delete methods: these
    are declared [Promise<void>] and return no value. Either way the call
    succeeds. *)
Theorem no_content_is_empty_success (o : Op) (m p : string) (b : Value)
    (st st1 : State) (tok : string) (response : Response) (w : World) :
  requestOf o = Some (m, p, b) ->
  admitted o st ->
  ensureToken st = (Normal tok, st1) ->
  fetch (world st1) (resourceRequest (client st1) tok m p b)
  = (Normal response, w) ->
  status response = 204 ->
  let st2 := afterFetch st1 (resourceRequest (client st1) tok m p b) w in
  request m p b st = (Normal emptyObject, st2) /\
  invoke o st
  = (Normal (if returnsVoid o then Undefined else emptyObject), st2).
Proof.
  intros Hreq Hadm Htok Hfetch Hstatus st2.
  assert (request m p b st = (Normal emptyObject, st2)) as Hr.
  { rewrite (request_with_token m p b st st1 tok Htok). cbn zeta.
    rewrite Hfetch, decode_eq. unfold ok. by rewrite Hstatus. }
  split; [exact Hr|].
  rewrite (invoke_admitted o m p b st Hreq Hadm).
  by apply finish_normal.
Qed.

(** C3 (as the code has it). A response outside 200-299 to the resource
    request of a method makes the method throw an error whose message
    contains the status code, in decimal, and the body text. A response
    outside 200-299 from the token endpoint makes it throw an error whose
    message is "Authentication failed: " followed by the body text, so it
    contains the body text; the status code is not put in. [getHealth]
    does not look at the status: it returns whatever the body decodes to. *)
Theorem error_carries_status_and_body :
  (forall o m p b st st1 tok response w,
     requestOf o = Some (m, p, b) ->
     admitted o st ->
     ensureToken st = (Normal tok, st1) ->
     fetch (world st1) (resourceRequest (client st1) tok m p b)
     = (Normal response, w) ->
     ok response = false ->
     exists e,
       invoke o st
       = (Abrupt e,
          afterFetch st1 (resourceRequest (client st1) tok m p b) w) /\
       includes (message e) (pretty (status response)) = true /\
       includes (message e) (text response) = true) /\
  (forall o m p b st response w,
     requestOf o = Some (m, p, b) ->
     admitted o st ->
     cachedToken (client st) (Date_now (world st)) = None ->
     fetch (world st) (tokenRequest (client st)) = (Normal response, w) ->
     ok response = false ->
     exists e,
       invoke o st = (Abrupt e, afterFetch st (tokenRequest (client st)) w) /\
       message e = "Authentication failed: " +:+ text response /\
       includes (message e) (text response) = true) /\
  (forall st response w,
     fetch (world st) (healthRequest (client st)) = (Normal response, w) ->
     invoke GetHealth st
     = (JSON_parse (text response),
        afterFetch st (healthRequest (client st)) w)).
Proof.
  split; [|split].
  - intros o m p b st st1 tok response w Hreq Hadm Htok Hfetch Hok.
    eexists. split; [|split].
    + rewrite (invoke_admitted o m p b st Hreq Hadm).
      apply finish_abrupt.
      rewrite (request_with_token m p b st st1 tok Htok). cbn zeta.
      rewrite Hfetch, decode_eq, Hok. reflexivity.
    + cbn [message Error_].
      exact (includes_app "API request failed: " (pretty (status response))
               (" - " +:+ text response)).
    + cbn [message Error_]. do 3 apply includes_app_r.
      apply includes_self.
  - intros o m p b st response w Hreq Hadm Hc Hfetch Hok.
    eexists. split; [|split].
    + rewrite (invoke_admitted o m p b st Hreq Hadm).
      apply finish_abrupt.
      apply request_without_token.
      rewrite (ensureToken_uncached st Hc), authenticate_eq. cbn zeta.
      rewrite Hfetch, Hok. reflexivity.
    + done.
    + cbn [message Error_]. apply includes_app_r.
      apply includes_self.
  - intros st response w Hfetch. unfold invoke, getHealth. unfold_client.
    by rewrite Hfetch.
Qed.

(** *** The cached token *)

Lemma cachedToken_Some (c : NpmApiClient) (t : Z) (tok : string) :
  cachedToken c t = Some tok <->
  token c = Some tok /\ tok <> EmptyString /\
  exists ms, tokenExpires c = Some (TimeValue ms) /\ t < ms.
Proof.
  unfold cachedToken. split.
  - destruct (token c) as [tk|]; [|done].
    destruct (tokenExpires c) as [[|ms]|]; cbn [Date_gt];
      rewrite ?andb_false_r; try done.
    destruct (truthy_string tk) eqn:Ht; cbn [andb]; [|done].
    destruct (t <? ms) eqn:Hlt; [|done].
    intros [= <-]. split; [done|]. split; [by apply truthy_string_true|].
    exists ms. split; [done|]. by apply Z.ltb_lt.
  - intros (-> & Hne & ms & -> & Hlt). cbn [Date_gt].
    apply truthy_string_true in Hne. apply Z.ltb_lt in Hlt.
    by rewrite Hne, Hlt.
Qed.

Lemma tokenValid_cached (c : NpmApiClient) (t : Z) :
  tokenValid c t <-> exists tok, cachedToken c t = Some tok.
Proof.
  unfold tokenValid. split.
  - intros (tok & ms & ? & ? & ? & ?). exists tok.
    apply cachedToken_Some. eauto.
  - intros (tok & H). apply cachedToken_Some in H as (? & ? & ms & ? & ?).
    eauto 10.
Qed.

Lemma not_tokenValid (c : NpmApiClient) (t : Z) :
  ~ tokenValid c t <-> cachedToken c t = None.
Proof.
  rewrite tokenValid_cached. destruct (cachedToken c t) as [tok|].
  - split; [intros H; destruct H; eauto|done].
  - split; [done|]. by intros _ [tok H].
Qed.

Lemma authenticate_normal (st st1 : State) (tok : string) :
  authenticate st = (Normal tok, st1) ->
  exists response w data,
    fetch (world st) (tokenRequest (client st)) = (Normal response, w) /\
    ok response = true /\
    JSON_parse (text response) = Normal data /\
    tok = tr_token (asTokenResponse data) /\
    st1 = {| client := withToken (asTokenResponse data) (client st);
             world := w;
             sent := sent st ++ [tokenRequest (client st)] |}.
Proof.
  rewrite authenticate_eq. cbn zeta.
  destruct (fetch (world st) (tokenRequest (client st))) as [[resp|e] w];
    [|done].
  destruct (ok resp) eqn:Hok; [|done].
  destruct (JSON_parse (text resp)) as [data|e] eqn:Hjson; [|done].
  intros [= <- <-]. by exists resp, w, data.
Qed.

(** The token [ensureToken] returns is the one the client holds
    afterwards. *)
Lemma ensureToken_token (st st1 : State) (tok : string) :
  ensureToken st = (Normal tok, st1) -> token (client st1) = Some tok.
Proof.
  destruct (cachedToken (client st) (Date_now (world st))) as [tk|] eqn:Hc.
  - rewrite (ensureToken_cached st tk Hc). intros [= <- <-].
    by apply cachedToken_Some in Hc as (? & _).
  - rewrite (ensureToken_uncached st Hc). intros Hauth.
    by apply authenticate_normal in Hauth as (? & ? & ? & _ & _ & _ & -> & ->).
Qed.

(** *** Which requests carry the bearer token *)

Lemma header_resourceRequest (c : NpmApiClient) (tok m p : string)
    (b : Value) :
  header "Authorization" (headers (resourceRequest c tok m p b))
  = Some ("Bearer " +:+ tok).
Proof. reflexivity. Qed.

Lemma header_tokenRequest (c : NpmApiClient) :
  header "Authorization" (headers (tokenRequest c)) = None.
Proof. reflexivity. Qed.

(** C4 (as the code has it). The requests a method sends are those of
    [requestsOf]. Each of them is the token request, which carries no
    [Authorization] header; or the request of [getHealth], a GET of
    [/api/] that carries no header at all; or the resource request, which
    carries [Authorization: Bearer] followed by the token [ensureToken]
    returned, the one the client holds: the cached token, when it is
    non-empty and not yet expired, and otherwise the token the token endpoint
    has just given. *)
Theorem bearer_token_on_resource_requests :
  (forall o st, sent (snd (invoke o st)) = sent st ++ requestsOf o st) /\
  (forall o st r,
     In r (requestsOf o st) ->
     (r = tokenRequest (client st) /\
      header "Authorization" (headers r) = None) \/
     (o = GetHealth /\ r = healthRequest (client st) /\
      url r = baseUrl (client st) +:+ "/api/" /\ headers r = []) \/
     (exists m p b tok st1,
        requestOf o = Some (m, p, b) /\
        ensureToken st = (Normal tok, st1) /\
        r = resourceRequest (client st1) tok m p b /\
        header "Authorization" (headers r) = Some ("Bearer " +:+ tok) /\
        token (client st1) = Some tok /\
        (tokenValid (client st) (Date_now (world st)) /\
         token (client st) = Some tok \/
         ~ tokenValid (client st) (Date_now (world st)) /\
         authenticate st = (Normal tok, st1)))).
Proof.
  split; [exact sent_invoke|].
  intros o st r. unfold requestsOf.
  destruct (requestOf o) as [[[m p] b]|] eqn:Hreq.
  - destruct (mutating o && _readonly (client st)); [done|].
    destruct (cachedToken (client st) (Date_now (world st)))
      as [tok|] eqn:Hc.
    + intros [<-|[]]. right; right. exists m, p, b, tok, st.
      pose proof (ensureToken_cached st tok Hc) as Hen.
      repeat split; try done.
      * by apply cachedToken_Some in Hc as (? & _).
      * left. split; [apply tokenValid_cached; eauto|].
        by apply cachedToken_Some in Hc as (? & _).
    + intros [<-|Hin]; [by left|].
      destruct (authenticate st) as [[tok|e] st1] eqn:Hauth; [|done].
      destruct Hin as [<-|[]]. right; right. exists m, p, b, tok, st1.
      assert (ensureToken st = (Normal tok, st1)) as Hen
        by (by rewrite (ensureToken_uncached st Hc)).
      repeat split; try done.
      * by apply (ensureToken_token st).
      * right. split; [by apply not_tokenValid|done].
  - intros [<-|[]]. right; left. by rewrite (requestOf_None o Hreq).
Qed.

(** *** Counting token requests *)

Lemma requestOf_path (o : Op) (m p : string) (b : Value) :
  requestOf o = Some (m, p, b) -> p <> "/tokens".
Proof.
  destruct o; intros [= <- <- <-] H; try discriminate H;
    cbv [String.append] in H; discriminate H.
Qed.

Lemma isTokenRequest_tokenRequest (c : NpmApiClient) :
  isTokenRequest c (tokenRequest c) = true.
Proof. apply eqb_refl. Qed.

Lemma isTokenRequest_resourceRequest (c c' : NpmApiClient) (o : Op)
    (tok m p : string) (b : Value) :
  baseUrl c' = baseUrl c ->
  requestOf o = Some (m, p, b) ->
  isTokenRequest c (resourceRequest c' tok m p b) = false.
Proof.
  intros Hbase Hreq. unfold isTokenRequest, resourceRequest; cbn [url].
  apply String.eqb_neq. rewrite Hbase. intros H.
  apply (inj (String.app (baseUrl c))) in H.
  apply (requestOf_path o m p b Hreq).
  by apply (inj (String.app "/api")) in H.
Qed.

Lemma request_state (m p : string) (b : Value) (st st1 : State)
    (tok : string) :
  ensureToken st = (Normal tok, st1) ->
  let r := resourceRequest (client st1) tok m p b in
  snd (request m p b st) = afterFetch st1 r (snd (fetch (world st1) r)).
Proof.
  intros E. rewrite (request_with_token m p b st st1 tok E). cbn zeta.
  destruct (fetch (world st1) (resourceRequest (client st1) tok m p b))
    as [[resp|e] w]; [|done].
  by rewrite decode_eq.
Qed.

(** *** What a call does to the client *)

Lemma client_authenticate (st : State) :
  client (snd (authenticate st)) = client st \/
  exists tr, client (snd (authenticate st)) = withToken tr (client st).
Proof.
  rewrite authenticate_eq. cbn zeta.
  destruct (fetch (world st) (tokenRequest (client st))) as [[resp|e] w];
    [|by left].
  destruct (ok resp); [|by left].
  destruct (JSON_parse (text resp)) as [data|e]; [|by left].
  right. by exists (asTokenResponse data).
Qed.

Lemma client_request (m p : string) (b : Value) (st : State) :
  client (snd (request m p b st)) = client st \/
  exists tr, client (snd (request m p b st)) = withToken tr (client st).
Proof.
  destruct (cachedToken (client st) (Date_now (world st))) as [tok|] eqn:Hc.
  - left. by rewrite (request_state m p b st st tok
                        (ensureToken_cached st tok Hc)).
  - pose proof (ensureToken_uncached st Hc) as Hen.
    pose proof (client_authenticate st) as Hcl.
    destruct (authenticate st) as [[tok|e] st1] eqn:Hauth; cbn [snd] in Hcl.
    + by rewrite (request_state m p b st st1 tok Hen).
    + by rewrite (request_without_token m p b st st1 e Hen).
Qed.

Lemma client_invoke (o : Op) (st : State) :
  client (snd (invoke o st)) = client st \/
  exists tr, client (snd (invoke o st)) = withToken tr (client st).
Proof.
  destruct (requestOf o) as [[[m p] b]|] eqn:Hreq.
  - destruct (mutating o && _readonly (client st)) eqn:Hblock.
    + apply andb_true_iff in Hblock as [Hm Hro].
      rewrite (invoke_shape o m p b Hreq). unfold guarded. rewrite Hm.
      unfold bind. rewrite (assertWritable_readonly _ _ Hro). by left.
    + rewrite (invoke_admitted o m p b st Hreq (admitted_dec o st Hblock)).
      rewrite finish_state. apply client_request.
  - rewrite (requestOf_None o Hreq). left. unfold invoke, getHealth.
    unfold_client.
    by destruct (fetch (world st) (healthRequest (client st)))
      as [[resp|e] w].
Qed.

(** C6. Every method leaves [baseUrl], [email], [password] and
    [_readonly] as they are: after a call the client is the one before, or
    the one before with the [token] and [tokenExpires] that [ensureToken]
    stored. So [isReadonly] is the same after any sequence of calls; and on
    a new client it is the [readonly] entry of the configuration, or
    [false] when that entry is omitted. *)
Theorem readonly_flag_immutable :
  (forall o st, sameConfig (client st) (client (snd (invoke o st)))) /\
  (forall o st,
     client (snd (invoke o st)) = client st \/
     exists tr, client (snd (invoke o st)) = withToken tr (client st)) /\
  (forall o st,
     isReadonly (client (snd (invoke o st))) = isReadonly (client st)) /\
  (forall os st,
     isReadonly (client (foldl (fun s o => snd (invoke o s)) st os))
     = isReadonly (client st)) /\
  (forall config,
     isReadonly (new config) = default false (cfg_readonly config) /\
     baseUrl (new config) = stripTrailingSlash (cfg_baseUrl config) /\
     email (new config) = cfg_email config /\
     password (new config) = cfg_password config /\
     token (new config) = None /\ tokenExpires (new config) = None) /\
  (forall url mail pw,
     isReadonly (new {| cfg_baseUrl := url; cfg_email := mail;
                        cfg_password := pw; cfg_readonly := None |})
     = false).
Proof.
  assert (forall o st,
            isReadonly (client (snd (invoke o st))) = isReadonly (client st))
    as Hflag.
  { intros o st. by destruct (keeps_invoke o st) as (_ & _ & _ & H). }
  split; [exact keeps_invoke|]. split; [exact client_invoke|].
  split; [exact Hflag|].
  split; [|split; [by repeat split|done]].
  intros os. induction os as [|o os IH]; intros st; [done|].
  cbn [foldl]. rewrite IH. apply Hflag.
Qed.

Lemma admitted_andb (o : Op) (st : State) :
  admitted o st -> mutating o && _readonly (client st) = false.
Proof. intros [->| ->]; [done|apply andb_false_r]. Qed.

Lemma requestsOf_cached (o : Op) (m p : string) (b : Value) (st : State)
    (tok : string) :
  requestOf o = Some (m, p, b) -> admitted o st ->
  cachedToken (client st) (Date_now (world st)) = Some tok ->
  requestsOf o st = [resourceRequest (client st) tok m p b].
Proof.
  intros Hreq Hadm Hc. unfold requestsOf.
  by rewrite Hreq, (admitted_andb o st Hadm), Hc.
Qed.

Lemma requestsOf_uncached (o : Op) (m p : string) (b : Value) (st : State) :
  requestOf o = Some (m, p, b) -> admitted o st ->
  cachedToken (client st) (Date_now (world st)) = None ->
  exists rest,
    requestsOf o st = tokenRequest (client st) :: rest /\
    countTokenRequests (client st) (requestsOf o st) = 1%nat /\
    (rest = [] \/
     exists tok st1,
       ensureToken st = (Normal tok, st1) /\
       rest = [resourceRequest (client st1) tok m p b]).
Proof.
  intros Hreq Hadm Hc. unfold requestsOf.
  rewrite Hreq, (admitted_andb o st Hadm), Hc.
  eexists. split; [reflexivity|].
  unfold countTokenRequests. cbn [List.filter].
  rewrite isTokenRequest_tokenRequest.
  destruct (authenticate st) as [[tok|e] st1] eqn:Hauth.
  - pose proof (keeps_authenticate st) as (Hbase & _).
    rewrite Hauth in Hbase. cbn [snd] in Hbase. cbn [List.filter].
    rewrite (isTokenRequest_resourceRequest _ _ o tok m p b Hbase Hreq).
    split; [done|]. right. exists tok, st1.
    by rewrite (ensureToken_uncached st Hc).
  - split; [done|]. by left.
Qed.

(** C2 (as the code has it). [ensureToken] returns the cached token
    and sends nothing exactly when a non-empty token is stored and the
    stored expiry is a valid date strictly later than the clock reading.
    Otherwise it performs one authentication exchange, and a method that the
    guard lets through sends that one token request first and the resource
    request after it, if the exchange gave a token. So two calls in a row,
    the first of which obtains a non-empty token and the second of which is
    made before the stored expiry, send one token request in all; and a
    call made at or after the stored expiry sends exactly one. *)
Theorem token_lifecycle :
  (forall st,
     tokenValid (client st) (Date_now (world st)) <->
     exists tok,
       token (client st) = Some tok /\ ensureToken st = (Normal tok, st)) /\
  (forall st,
     ~ tokenValid (client st) (Date_now (world st)) ->
     sent (snd (ensureToken st)) = sent st ++ [tokenRequest (client st)] /\
     forall o m p b,
       requestOf o = Some (m, p, b) -> admitted o st ->
       exists rest,
         sent (snd (invoke o st))
         = sent st ++ tokenRequest (client st) :: rest /\
         countTokenRequests (client st) (tokenRequest (client st) :: rest)
         = 1%nat /\
         (rest = [] \/
          exists tok st1,
            ensureToken st = (Normal tok, st1) /\
            rest = [resourceRequest (client st1) tok m p b])) /\
  (forall o1 o2 m1 p1 b1 m2 p2 b2 st tok st1 ms w2,
     requestOf o1 = Some (m1, p1, b1) ->
     requestOf o2 = Some (m2, p2, b2) ->
     admitted o1 st -> admitted o2 st ->
     ~ tokenValid (client st) (Date_now (world st)) ->
     ensureToken st = (Normal tok, st1) ->
     tok <> EmptyString ->
     tokenExpires (client st1) = Some (TimeValue ms) ->
     Date_now w2 < ms ->
     let new :=
       [tokenRequest (client st);
        resourceRequest (client st1) tok m1 p1 b1;
        resourceRequest (client st1) tok m2 p2 b2] in
     sent (snd (invoke o2 (resume (snd (invoke o1 st)) w2)))
     = sent st ++ new /\
     countTokenRequests (client st) new = 1%nat) /\
  (forall o m p b st ms,
     requestOf o = Some (m, p, b) -> admitted o st ->
     tokenExpires (client st) = Some (TimeValue ms) ->
     ms <= Date_now (world st) ->
     exists rest,
       sent (snd (invoke o st))
       = sent st ++ tokenRequest (client st) :: rest /\
       countTokenRequests (client st) (tokenRequest (client st) :: rest)
       = 1%nat).
Proof.
  assert (forall o m p b st,
            requestOf o = Some (m, p, b) -> admitted o st ->
            ~ tokenValid (client st) (Date_now (world st)) ->
            exists rest,
              sent (snd (invoke o st))
              = sent st ++ tokenRequest (client st) :: rest /\
              countTokenRequests (client st) (tokenRequest (client st) :: rest)
              = 1%nat /\
              (rest = [] \/
               exists tok st1,
                 ensureToken st = (Normal tok, st1) /\
                 rest = [resourceRequest (client st1) tok m p b])) as Hone.
  { intros o m p b st Hreq Hadm Hinv. apply not_tokenValid in Hinv.
    destruct (requestsOf_uncached o m p b st Hreq Hadm Hinv)
      as (rest & Heq & Hcount & Hrest).
    exists rest. rewrite sent_invoke, <- Heq. by repeat split. }
  split; [|split; [|split]].
  - intros st. split.
    + intros Hv. apply tokenValid_cached in Hv as [tok Hc]. exists tok.
      split; [by apply cachedToken_Some in Hc as (? & _)|].
      by apply ensureToken_cached.
    + intros (tok & Htok & Hen).
      destruct (cachedToken (client st) (Date_now (world st)))
        as [tk|] eqn:Hc; [apply tokenValid_cached; eauto|].
      exfalso. pose proof (sent_authenticate st) as Hsent.
      rewrite <- (ensureToken_uncached st Hc), Hen in Hsent.
      cbn [snd] in Hsent. apply (f_equal length) in Hsent.
      rewrite length_app in Hsent. cbn [length] in Hsent. lia.
  - intros st Hinv. split.
    + apply not_tokenValid in Hinv.
      rewrite (ensureToken_uncached st Hinv). apply sent_authenticate.
    + intros o m p b Hreq Hadm. by apply (Hone o m p b).
  - intros o1 o2 m1 p1 b1 m2 p2 b2 st tok st1 ms w2
      Hreq1 Hreq2 Hadm1 Hadm2 Hinv Hen Hne Hexp Hnow new.
    pose proof Hinv as Hc. apply not_tokenValid in Hc.
    assert (sent st1 = sent st ++ [tokenRequest (client st)]) as Hsent1.
    { pose proof (sent_authenticate st) as H.
      by rewrite <- (ensureToken_uncached st Hc), Hen in H. }
    pose proof (keeps_ensureToken st) as Hkeep.
    rewrite Hen in Hkeep. cbn [snd] in Hkeep.
    destruct Hkeep as (Hbase & _ & _ & Hro).
    (* the first call *)
    assert (snd (invoke o1 st)
            = afterFetch st1 (resourceRequest (client st1) tok m1 p1 b1)
                (snd (fetch (world st1)
                        (resourceRequest (client st1) tok m1 p1 b1))))
      as Hfirst.
    { rewrite (invoke_admitted o1 m1 p1 b1 st Hreq1 Hadm1), finish_state.
      by apply request_state. }
    (* the second call finds the token still good *)
    set (st2 := resume (snd (invoke o1 st)) w2).
    assert (client st2 = client st1) as Hcl by (unfold st2; by rewrite Hfirst).
    assert (cachedToken (client st2) (Date_now (world st2)) = Some tok)
      as Hc2.
    { rewrite Hcl. apply cachedToken_Some.
      split; [by apply (ensureToken_token st)|]. split; [done|].
      exists ms. by split. }
    assert (admitted o2 st2) as Hadm2'.
    { unfold admitted. rewrite Hcl, Hro. exact Hadm2. }
    split.
    + rewrite sent_invoke, (requestsOf_cached o2 m2 p2 b2 st2 tok
                              Hreq2 Hadm2' Hc2).
      rewrite Hcl. unfold st2, resume; cbn [sent]. rewrite Hfirst.
      unfold afterFetch; cbn [sent]. rewrite Hsent1.
      unfold new. by rewrite <- !app_assoc.
    + unfold new, countTokenRequests. cbn [List.filter].
      rewrite isTokenRequest_tokenRequest.
      rewrite (isTokenRequest_resourceRequest _ _ o1 tok m1 p1 b1 Hbase Hreq1).
      by rewrite (isTokenRequest_resourceRequest _ _ o2 tok m2 p2 b2
                    Hbase Hreq2).
  - intros o m p b st ms Hreq Hadm Hexp Hlate.
    destruct (Hone o m p b st Hreq Hadm) as (rest & Hsent & Hcount & _).
    { intros (tok & ms' & _ & _ & Hexp' & Hlt).
      rewrite Hexp in Hexp'. injection Hexp' as <-. lia. }
    by exists rest.
Qed.

(** *** The base URL *)

Lemma stripTrailingSlash_app_slash (u : string) :
  stripTrailingSlash (u +:+ "/") = u.
Proof.
  induction u as [|c u IH]; [done|].
  change (String c u +:+ "/") with (String c (u +:+ "/")).
  cbn [stripTrailingSlash]. rewrite IH.
  destruct (u +:+ "/") eqn:E; [|done].
  apply (f_equal String.length) in E. rewrite string_app_length in E.
  cbn [String.length] in E. lia.
Qed.

Lemma stripTrailingSlash_id (u : string) :
  endsWithSlash u = false -> stripTrailingSlash u = u.
Proof.
  induction u as [|c u IH]; [done|]. cbn [endsWithSlash stripTrailingSlash].
  destruct u as [|c' u]; [by intros ->|]. intros H. by rewrite IH.
Qed.

Lemma endsWithSlash_app_slash (u : string) :
  endsWithSlash (u +:+ "/") = true.
Proof.
  induction u as [|c u IH]; [done|].
  change (String c u +:+ "/") with (String c (u +:+ "/")).
  cbn [endsWithSlash]. destruct (u +:+ "/") eqn:E; [|done].
  apply (f_equal String.length) in E. rewrite string_app_length in E.
  cbn [String.length] in E. lia.
Qed.

Lemma url_requestsOf (o : Op) (st : State) (r : Request) :
  In r (requestsOf o st) ->
  exists path, url r = baseUrl (client st) +:+ "/api" +:+ path.
Proof.
  unfold requestsOf.
  destruct (requestOf o) as [[[m p] b]|] eqn:Hreq.
  - destruct (mutating o && _readonly (client st)); [done|].
    destruct (cachedToken (client st) (Date_now (world st))) as [tok|].
    + intros [<-|[]]. by exists p.
    + intros [<-|Hin]; [by exists "/tokens"|].
      pose proof (keeps_authenticate st) as (Hbase & _).
      destruct (authenticate st) as [[tok|e] st1]; [|done].
      destruct Hin as [<-|[]]. exists p. cbn [snd] in Hbase.
      unfold resourceRequest; cbn [url]. by rewrite Hbase.
  - intros [<-|[]]. by exists "/".
Qed.

(** C9. The constructor removes exactly one trailing slash: the base URL
    of a client configured with [u] followed by a slash is [u], and a base
    URL without a trailing slash is kept. So for a base URL [u] without a
    trailing slash, whatever the rest of the configuration, the client made
    from [u] followed by a slash is the client made from [u], and every
    method does the same on both: the same requests, with the same URLs.
    Each URL is the stored base URL followed by [/api] and a path. With two
    trailing slashes the stored base URL still ends with a slash, and is
    not the one stored for a single trailing slash. *)
Theorem base_url_normalization :
  (forall u, stripTrailingSlash (u +:+ "/") = u) /\
  (forall u mail pw ro,
     baseUrl (new (configFor (u +:+ "/") mail pw ro)) = u) /\
  (forall u mail pw ro o w,
     endsWithSlash u = false ->
     new (configFor (u +:+ "/") mail pw ro) = new (configFor u mail pw ro) /\
     invoke o (fresh (configFor (u +:+ "/") mail pw ro) w)
     = invoke o (fresh (configFor u mail pw ro) w) /\
     url <$> sent (snd (invoke o (fresh (configFor (u +:+ "/") mail pw ro) w)))
     = url <$> sent (snd (invoke o (fresh (configFor u mail pw ro) w)))) /\
  (forall o st r,
     In r (requestsOf o st) ->
     exists path, url r = baseUrl (client st) +:+ "/api" +:+ path) /\
  (forall u mail pw ro,
     baseUrl (new (configFor (u +:+ "//") mail pw ro)) = u +:+ "/" /\
     endsWithSlash (baseUrl (new (configFor (u +:+ "//") mail pw ro))) = true /\
     baseUrl (new (configFor (u +:+ "//") mail pw ro))
     <> baseUrl (new (configFor (u +:+ "/") mail pw ro))).
Proof.
  split; [exact stripTrailingSlash_app_slash|].
  split; [intros; apply stripTrailingSlash_app_slash|].
  split; [|split; [exact url_requestsOf|]].
  - intros u mail pw ro o w Hu.
    assert (new (configFor (u +:+ "/") mail pw ro)
            = new (configFor u mail pw ro)) as Hnew.
    { unfold new, configFor; cbn [cfg_baseUrl cfg_email cfg_password cfg_readonly].
      by rewrite stripTrailingSlash_app_slash, stripTrailingSlash_id. }
    unfold fresh. by rewrite Hnew.
  - intros u mail pw ro.
    assert (stripTrailingSlash (u +:+ "//") = u +:+ "/") as Hstrip.
    { change "//" with ("/" +:+ "/"). rewrite <- string_app_assoc.
      apply stripTrailingSlash_app_slash. }
    unfold new, configFor; cbn [baseUrl cfg_baseUrl].
    rewrite Hstrip, stripTrailingSlash_app_slash.
    split; [done|]. split; [apply endsWithSlash_app_slash|].
    intros H. apply (f_equal String.length) in H.
    rewrite string_app_length in H. cbn [String.length] in H. lia.
Qed.

End WithRuntime.
End ClientFacts.

(** ** The command-line dispatcher *)

Module CliFacts.
Import Client Builtin Cli StringFacts.

Lemma startsWith_slice2 (arg : string) :
  startsWith arg "--" = true -> arg = "--" +:+ slice2 arg.
Proof.
  unfold startsWith. destruct arg as [|a [|b rest]];
    cbn [String.prefix slice2]; [done| |].
  - by destruct (Ascii.ascii_dec "-" a).
  - destruct (Ascii.ascii_dec "-" a) as [<-|]; [|done].
    by destruct (Ascii.ascii_dec "-" b) as [<-|].
Qed.

(** An option that does not occur among the arguments is not set. *)
Lemma parseArgsLoop_missing (k : string) (n : nat) :
  forall args result,
    (length args <= n)%nat ->
    ~ In ("--" +:+ k) args ->
    result !! k = None ->
    parseArgsLoop args result !! k = None.
Proof.
  induction n as [|n IH]; intros [|arg rest] result Hlen Hnot Hres;
    cbn [length] in Hlen; try done; try lia.
  cbn [parseArgsLoop].
  assert (~ In ("--" +:+ k) rest) as Hrest by (intros H; apply Hnot; by right).
  destruct (startsWith arg "--") eqn:Hopt; [|apply IH; [lia|done..]].
  assert (slice2 arg <> k) as Hkey.
  { intros <-. apply Hnot. left. by apply startsWith_slice2. }
  destruct rest as [|next rest'].
  - by rewrite lookup_insert_ne.
  - cbn [length] in Hlen. case_match.
    + apply IH; [lia| |by rewrite lookup_insert_ne].
      intros Hin. apply Hrest. by right.
    + apply IH; [cbn [length]; lia|done|by rewrite lookup_insert_ne].
Qed.

Lemma parseArgs_missing (k : string) (args : list string) :
  ~ In ("--" +:+ k) args -> parseArgs args !! k = None.
Proof.
  intros H. by apply (parseArgsLoop_missing k (length args)).
Qed.

Section WithRuntime.
Context `{RT : Runtime}.

(** A subcommand that takes an id throws before it calls the client when
    the id does not parse. *)
Lemma parseId_NaN (args : list string) (p : Process) :
  parseIntOf (args !! 2%nat) = NaN ->
  parseId args p = (Abrupt (Error_ "Invalid ID"), p).
Proof. intros E. unfold parseId. by rewrite E. Qed.

Lemma getAndPrint_NaN (args : list string) (method : Z -> Op) (p : Process) :
  parseIntOf (args !! 2%nat) = NaN ->
  getAndPrint args method p = (Abrupt (Error_ "Invalid ID"), p).
Proof. intros E. unfold getAndPrint, bindP. by rewrite parseId_NaN. Qed.

Lemma actAndReport_NaN (args : list string) (method : Z -> Op)
    (what done : string) (p : Process) :
  parseIntOf (args !! 2%nat) = NaN ->
  actAndReport args method what done p = (Abrupt (Error_ "Invalid ID"), p).
Proof. intros E. unfold actAndReport, bindP. by rewrite parseId_NaN. Qed.

Lemma dispatch_invalid_id (args : list string) (command subcommand : string)
    (p : Process) :
  args !! 0%nat = Some command ->
  args !! 1%nat = Some subcommand ->
  takesId command subcommand = true ->
  parseIntOf (args !! 2%nat) = NaN ->
  dispatch args p = (Abrupt (Error_ "Invalid ID"), p).
Proof.
  intros Hc Hs Hid Hnan. unfold dispatch. rewrite Hc, Hs.
  unfold strictEq. revert Hid. unfold takesId.
  repeat match goal with
         | |- context [String.eqb command ?lit] =>
             destruct (String.eqb_spec command lit) as [->|_]
         end; cbn [orb]; try discriminate;
  repeat match goal with
         | |- context [String.eqb subcommand ?lit] =>
             destruct (String.eqb_spec subcommand lit) as [->|_]
         end; cbn [orb]; try discriminate; intros _;
  first [by apply getAndPrint_NaN | by apply actAndReport_NaN].
Qed.

(** C7. When the subcommand is one that takes a numeric id ([get],
    [delete], [enable], [disable] or [renew], where the command has it) and
    [parseInt] makes no number of the id argument, [main] fails before it
    calls the client: "Error: Invalid ID" is written to standard error, the
    exit code is 1, no client method was called and nothing was sent. *)
Theorem invalid_id_is_fatal (args : list string)
    (command subcommand : string) (p : Process) :
  args !! 0%nat = Some command ->
  args !! 1%nat = Some subcommand ->
  takesId command subcommand = true ->
  parseIntOf (args !! 2%nat) = NaN ->
  In subcommand ["get"; "delete"; "enable"; "disable"; "renew"] /\
  main args p = (1, withError "Error: Invalid ID" p) /\
  calls (snd (main args p)) = calls p /\
  run (snd (main args p)) = run p /\
  stdout (snd (main args p)) = stdout p.
Proof.
  intros Hc Hs Hid Hnan.
  assert (main args p = (1, withError "Error: Invalid ID" p)) as Hmain.
  { unfold main.
    by rewrite (dispatch_invalid_id args command subcommand p Hc Hs Hid Hnan). }
  split; [|by rewrite Hmain].
  revert Hid. unfold takesId. cbn [In].
  repeat match goal with
         | |- context [String.eqb subcommand ?lit] =>
             destruct (String.eqb_spec subcommand lit) as [->|_]
         end; auto 10;
  repeat case_match; cbn [orb]; discriminate.
Qed.

(** *** Create subcommands *)

Lemma calls_createAndPrint (args : list string)
    (input : gmap string string -> Value) (method : Value -> Op)
    (p : Process) :
  let o := method (input (parseArgs (drop 2 args))) in
  calls (snd (createAndPrint args input method p)) = calls p ++ [o] /\
  run (snd (createAndPrint args input method p)) = snd (invoke o (run p)).
Proof.
  cbn zeta. unfold createAndPrint, bindP, call.
  by destruct (invoke _ (run p)) as [[v|e] st].
Qed.

Lemma main_calls_run (args : list string) (p : Process) :
  calls (snd (main args p)) = calls (snd (dispatch args p)) /\
  run (snd (main args p)) = run (snd (dispatch args p)).
Proof. unfold main. by destruct (dispatch args p) as [[v|e] p']. Qed.

Lemma dispatch_create (args : list string) (command : string) (o : Op)
    (p : Process) :
  args !! 0%nat = Some command ->
  args !! 1%nat = Some "create" ->
  createCall command (parseArgs (drop 2 args)) = Some o ->
  calls (snd (dispatch args p)) = calls p ++ [o] /\
  run (snd (dispatch args p)) = snd (invoke o (run p)).
Proof.
  intros Hc Hs. unfold dispatch, createCall. rewrite Hc, Hs.
  unfold strictEq.
  repeat match goal with
         | |- context [String.eqb command ?lit] =>
             destruct (String.eqb_spec command lit) as [->|_]
         end; try discriminate; intros [= <-];
  apply calls_createAndPrint.
Qed.

(** C10. A [create] subcommand always calls the client's create method,
    whatever the options are, with the input object built from them; the
    CLI checks nothing. For [proxy-hosts create] an option that is not
    given leaves [forward_port] at 80, [forward_scheme] at "http",
    [forward_host] empty and [domain_names] an empty list, and so does a
    port that [parseInt] makes no number of. *)
Theorem create_is_not_validated :
  (forall args command o p,
     args !! 0%nat = Some command ->
     args !! 1%nat = Some "create" ->
     createCall command (parseArgs (drop 2 args)) = Some o ->
     calls (snd (main args p)) = calls p ++ [o] /\
     run (snd (main args p)) = snd (invoke o (run p))) /\
  (forall opts,
     createCall "proxy-hosts" opts
     = Some (CreateProxyHost (proxyHostInput opts))) /\
  (forall args,
     let input := proxyHostInput (parseArgs args) in
     (~ In "--forward-port" args ->
      getField input "forward_port" = Numeric (Num 80)) /\
     (~ In "--forward-scheme" args ->
      getField input "forward_scheme" = Str "http") /\
     (~ In "--forward-host" args ->
      getField input "forward_host" = Str EmptyString) /\
     (~ In "--domains" args ->
      getField input "domain_names" = Arr [])) /\
  (forall opts s,
     opts !! "forward-port" = Some s -> parseInt s = NaN ->
     getField (proxyHostInput opts) "forward_port" = Numeric (Num 80)).
Proof.
  split; [|split; [done|split]].
  - intros args command o p Hc Hs Hcall.
    destruct (main_calls_run args p) as [-> ->].
    by apply (dispatch_create args command).
  - intros args input. unfold input, proxyHostInput.
    cbn [getField lookupField String.eqb Ascii.eqb Bool.eqb].
    repeat split; intros Hmiss.
    + by rewrite (parseArgs_missing "forward-port" args Hmiss).
    + by rewrite (parseArgs_missing "forward-scheme" args Hmiss).
    + by rewrite (parseArgs_missing "forward-host" args Hmiss).
    + unfold domainsOf. by rewrite (parseArgs_missing "domains" args Hmiss).
  - intros opts s Hport Hnan. unfold proxyHostInput.
    cbn [getField lookupField String.eqb Ascii.eqb Bool.eqb].
    rewrite Hport. cbn [parseIntOf]. by rewrite Hnan.
Qed.

End WithRuntime.

(** ** Start-up *)

(** C8. Both programs create the client with the readonly flag set
    exactly when the environment variable [NPM_READONLY] is the string
    "true": with any other value, or without the variable, the client is
    read-write. *)
Theorem readonly_iff_env_true (env : Env) :
  (forall errs c,
     Cli.startup env = (errs, Some c) ->
     (isReadonly c = true <-> env !! "NPM_READONLY" = Some "true") /\
     (env !! "NPM_READONLY" <> Some "true" -> isReadonly c = false)) /\
  (forall errs c,
     Index.startup env = (errs, Some c) ->
     (isReadonly c = true <-> env !! "NPM_READONLY" = Some "true") /\
     (env !! "NPM_READONLY" <> Some "true" -> isReadonly c = false)).
Proof.
  assert (forall b : bool,
            (b = true <-> env !! "NPM_READONLY" = Some "true") ->
            env !! "NPM_READONLY" <> Some "true" -> b = false) as Hneg.
  { intros [|] Hiff Hne; [|done]. destruct Hne. by apply Hiff. }
  assert (strictEq (env !! "NPM_READONLY") "true" = true
          <-> env !! "NPM_READONLY" = Some "true") as Hflag.
  { unfold strictEq. destruct (env !! "NPM_READONLY") as [v|]; [|done].
    rewrite String.eqb_eq. split; [by intros ->|by intros [= ->]]. }
  split; intros errs c; [unfold Cli.startup|unfold Index.startup];
    case_match; intros [= <- <-];
    (assert (isReadonly
               (new {| cfg_baseUrl := orString (env !! "NPM_URL")
                                        "http://localhost:81";
                       cfg_email := orString (env !! "NPM_EMAIL") EmptyString;
                       cfg_password :=
                         orString (env !! "NPM_PASSWORD") EmptyString;
                       cfg_readonly :=
                         Some (strictEq (env !! "NPM_READONLY") "true") |})
             = true <-> env !! "NPM_READONLY" = Some "true") as Hiff
       by exact Hflag);
    (split; [exact Hiff|by apply Hneg]).
Qed.

End CliFacts.

(** ** Concrete runs *)

Module Runs.
Import Client Builtin Scripted.

(** C1, on [deleteStream(5)] and a readonly client: the call fails with
    the readonly error and nothing is sent. *)
Lemma readonly_guard_witness :
  let st := start true 0 [tokenReply; reply 204 EmptyString] in
  mutating (DeleteStream 5) = true /\
  _readonly (client st) = true /\
  exists e,
    invoke (DeleteStream 5) st = (Abrupt e, st) /\
    name e = "ReadonlyModeError" /\
    includes (message e) "deleteStream" = true /\
    includes (message e) "readonly mode" = true.
Proof.
  cbn zeta. split; [reflexivity|]. split; [reflexivity|].
  exact (proj1 (proj2 (ClientFacts.readonly_guard)) (DeleteStream 5)
           (start true 0 [tokenReply; reply 204 EmptyString])
           eq_refl eq_refl).
Defined.

(** C2 as stated fails when the token endpoint hands out an empty token:
    after the first call an (empty) token is stored and its expiry, 5000,
    is later than the clock reading, 0; yet [ensureToken] does not return
    it but sends a token request, and two calls in a row send two. *)
Lemma token_reuse_counterexample :
  let st0 := start false 0 [emptyTokenReply; listReply;
                            emptyTokenReply; listReply] in
  let st1 := snd (invoke ListProxyHosts st0) in
  let st2 := snd (invoke ListProxyHosts st1) in
  token (client st1) = Some EmptyString /\
  tokenExpires (client st1) = Some (TimeValue 5000) /\
  Date_now (world st1) < 5000 /\
  sent (snd (ensureToken st1)) = sent st1 ++ [tokenRequest (client st1)] /\
  ensureToken st1 <> (Normal EmptyString, st1) /\
  countTokenRequests (client st0) (sent st2) = 2%nat.
Proof.
  cbn zeta. repeat split; try (vm_compute; reflexivity).
  intros H. apply (f_equal (fun x => length (sent (snd x)))) in H.
  vm_compute in H. discriminate H.
Qed.

(** C2 as amended, on two calls of [listProxyHosts] in a row, the second
    at clock reading 10, before the expiry 5000 of the token the first one
    obtained. *)
Lemma token_lifecycle_witness :
  let st := start false 0 [tokenReply; listReply; listReply] in
  let st1 := snd (ensureToken st) in
  let w2 := {| clock := 10; script := [listReply] |} in
  let new :=
    [tokenRequest (client st);
     resourceRequest (client st1) "abc" "GET" "/nginx/proxy-hosts" Undefined;
     resourceRequest (client st1) "abc" "GET" "/nginx/proxy-hosts" Undefined]
  in
  (~ tokenValid (client st) (Date_now (world st)) /\
   ensureToken st = (Normal "abc", st1) /\
   tokenExpires (client st1) = Some (TimeValue 5000) /\
   Date_now w2 < 5000) /\
  sent (snd (invoke ListProxyHosts
               (resume (snd (invoke ListProxyHosts st)) w2)))
  = sent st ++ new /\
  countTokenRequests (client st) new = 1%nat.
Proof.
  cbn zeta.
  assert (~ tokenValid
            (client (start false 0 [tokenReply; listReply; listReply]))
            (Date_now (world (start false 0
                                [tokenReply; listReply; listReply]))))
    as Hinvalid.
  { intros (tok & ms & Htok & _). discriminate Htok. }
  split; [repeat split; [exact Hinvalid|reflexivity..]|].
  refine (proj1 (proj2 (proj2 (ClientFacts.token_lifecycle)))
            ListProxyHosts ListProxyHosts
            "GET" "/nginx/proxy-hosts" Undefined
            "GET" "/nginx/proxy-hosts" Undefined
            (start false 0 [tokenReply; listReply; listReply]) "abc"
            (snd (ensureToken
                    (start false 0 [tokenReply; listReply; listReply])))
            5000 {| clock := 10; script := [listReply] |}
            eq_refl eq_refl (or_introl eq_refl) (or_introl eq_refl)
            Hinvalid eq_refl _ eq_refl eq_refl).
  discriminate.
Defined.

(** C3 as stated fails on the token endpoint and on the health endpoint:
    a 500 from the token endpoint gives an error whose message does not
    contain 500, and a 500 from the health endpoint gives no error at
    all when its body is JSON. *)
Lemma error_message_counterexample :
  let st := start false 0 [errorReply 500] in
  (exists e,
     fst (invoke ListProxyHosts st) = Abrupt e /\
     sent (snd (invoke ListProxyHosts st)) = [tokenRequest (client st)] /\
     includes (message e) "500" = false) /\
  fst (invoke GetHealth st) = Normal (Obj [("error", Str "boom")]) /\
  sent (snd (invoke GetHealth st)) = [healthRequest (client st)].
Proof.
  cbn zeta. split; [|split; reflexivity].
  eexists. split; [reflexivity|]. split; reflexivity.
Qed.

(** C3 as amended, on a 404 to the resource request of [getStream(5)]. *)
Lemma error_carries_status_and_body_witness :
  let st := start false 0 [tokenReply; reply 404 "not found"] in
  let st1 := snd (ensureToken st) in
  let r := resourceRequest (client st1) "abc" "GET" "/nginx/streams/5"
             Undefined in
  (ensureToken st = (Normal "abc", st1) /\
   fetch (world st1) r
   = (Normal {| status := 404; text := "not found" |},
      {| clock := 0; script := [] |})) /\
  exists e,
    invoke (GetStream 5) st
    = (Abrupt e, afterFetch st1 r {| clock := 0; script := [] |}) /\
    includes (message e) (pretty 404) = true /\
    includes (message e) "not found" = true.
Proof.
  cbn zeta. split; [split; reflexivity|].
  exact (proj1 (ClientFacts.error_carries_status_and_body)
           (GetStream 5) "GET" "/nginx/streams/5" Undefined
           (start false 0 [tokenReply; reply 404 "not found"])
           (snd (ensureToken
                   (start false 0 [tokenReply; reply 404 "not found"])))
           "abc" {| status := 404; text := "not found" |}
           {| clock := 0; script := [] |}
           eq_refl (or_introl eq_refl) eq_refl eq_refl eq_refl).
Defined.

(** C4 as stated fails on [getHealth]: its request, a GET of [/api/], is
    not the token request and carries no [Authorization] header. *)
Lemma unauthenticated_health_counterexample :
  let st := start false 0 [listReply] in
  exists r,
    sent (snd (invoke GetHealth st)) = [r] /\
    url r = "http://npm:81/api/" /\
    method r = "GET" /\
    isTokenRequest (client st) r = false /\
    header "Authorization" (headers r) = None.
Proof. cbn zeta. eexists. repeat split; reflexivity. Qed.

(** C4 as amended, on the resource request of [listStreams]. *)
Lemma bearer_token_witness :
  let st := start false 0 [tokenReply; listReply] in
  let st1 := snd (ensureToken st) in
  let r := resourceRequest (client st1) "abc" "GET" "/nginx/streams"
             Undefined in
  In r (requestsOf ListStreams st) /\
  header "Authorization" (headers r) = Some "Bearer abc" /\
  token (client st1) = Some "abc".
Proof.
  cbn zeta.
  assert (In (resourceRequest
                (client (snd (ensureToken
                                (start false 0 [tokenReply; listReply]))))
                "abc" "GET" "/nginx/streams" Undefined)
             (requestsOf ListStreams (start false 0 [tokenReply; listReply])))
    as Hin by (right; left; reflexivity).
  split; [exact Hin|].
  destruct (proj2 (ClientFacts.bearer_token_on_resource_requests)
              ListStreams (start false 0 [tokenReply; listReply]) _ Hin)
    as [[Heq _]|[(Heq & _)|(m & p & b & tok & st1 & _ & Hen & _ & _ & _)]].
  - discriminate Heq.
  - discriminate Heq.
  - split; reflexivity.
Defined.

(** C5 as stated fails on the delete methods: on a 204, [deleteStream(5)]
    returns no value; it is [request] that returned the empty object. *)
Lemma delete_returns_no_value_counterexample :
  let st := start false 0 [tokenReply; reply 204 EmptyString] in
  fst (invoke (DeleteStream 5) st) = Normal Undefined /\
  Undefined <> emptyObject /\
  fst (request "DELETE" "/nginx/streams/5" Undefined st) = Normal emptyObject.
Proof. cbn zeta. repeat split; try reflexivity. discriminate. Qed.

(** C5 as amended, on [enableStream(5)] answered with a 204 whose empty
    body is not JSON. *)
Lemma no_content_witness :
  let st := start false 0 [tokenReply; reply 204 EmptyString] in
  let st1 := snd (ensureToken st) in
  let r := resourceRequest (client st1) "abc" "POST"
             "/nginx/streams/5/enable" Undefined in
  let st2 := afterFetch st1 r {| clock := 0; script := [] |} in
  (ensureToken st = (Normal "abc", st1) /\
   JSON_parse EmptyString
   = Abrupt {| name := "SyntaxError"; message := "Unexpected token" |}) /\
  request "POST" "/nginx/streams/5/enable" Undefined st
  = (Normal emptyObject, st2) /\
  invoke (EnableStream 5) st = (Normal emptyObject, st2).
Proof.
  cbn zeta. split; [split; reflexivity|].
  exact (ClientFacts.no_content_is_empty_success
           (EnableStream 5) "POST" "/nginx/streams/5/enable" Undefined
           (start false 0 [tokenReply; reply 204 EmptyString])
           (snd (ensureToken
                   (start false 0 [tokenReply; reply 204 EmptyString])))
           "abc" {| status := 204; text := EmptyString |}
           {| clock := 0; script := [] |}
           eq_refl (or_intror eq_refl) eq_refl eq_refl eq_refl).
Defined.

(** C7, on [proxy-hosts get abc]. *)
Lemma invalid_id_witness :
  let args := ["proxy-hosts"; "get"; "abc"] in
  let p := process (start false 0 [tokenReply; listReply]) in
  (Cli.takesId "proxy-hosts" "get" = true /\
   parseIntOf (args !! 2%nat) = NaN) /\
  Cli.main args p = (1, Cli.withError "Error: Invalid ID" p) /\
  Cli.calls (snd (Cli.main args p)) = [] /\
  sent (Cli.run (snd (Cli.main args p))) = [].
Proof.
  cbn zeta. split; [split; reflexivity|].
  destruct (CliFacts.invalid_id_is_fatal
              ["proxy-hosts"; "get"; "abc"] "proxy-hosts" "get"
              (process (start false 0 [tokenReply; listReply]))
              eq_refl eq_refl eq_refl eq_refl)
    as (_ & Hmain & Hcalls & Hrun & _).
  split; [exact Hmain|]. split; [exact Hcalls|]. by rewrite Hrun.
Defined.

(** C8, on [NPM_READONLY=TRUE]: both programs create a read-write client. *)
Lemma readonly_iff_env_true_witness :
  exists c,
    Cli.startup shoutingEnv = ([], Some c) /\
    Index.startup shoutingEnv = ([], Some c) /\
    shoutingEnv !! "NPM_READONLY" = Some "TRUE" /\
    isReadonly c = false.
Proof.
  eexists. split; [vm_compute; reflexivity|].
  split; [vm_compute; reflexivity|]. split; [vm_compute; reflexivity|].
  refine (proj2 (proj1 (CliFacts.readonly_iff_env_true shoutingEnv) [] _ _) _).
  - vm_compute; reflexivity.
  - vm_compute. discriminate.
Defined.

(** C9, on [http://npm:81] with and without a trailing slash. *)
Lemma base_url_witness :
  let w := {| clock := 0; script := [tokenReply; listReply] |} in
  let slash := configFor ("http://npm:81" +:+ "/") "a@b.c" "pw" None in
  let plain := configFor "http://npm:81" "a@b.c" "pw" None in
  endsWithSlash "http://npm:81" = false /\
  new slash = new plain /\
  invoke ListProxyHosts (fresh slash w) = invoke ListProxyHosts (fresh plain w) /\
  url <$> sent (snd (invoke ListProxyHosts (fresh slash w)))
  = url <$> sent (snd (invoke ListProxyHosts (fresh plain w))).
Proof.
  cbn zeta. split; [reflexivity|].
  exact (proj1 (proj2 (proj2 (ClientFacts.base_url_normalization)))
           "http://npm:81" "a@b.c" "pw" None ListProxyHosts
           {| clock := 0; script := [tokenReply; listReply] |} eq_refl).
Defined.

(** C10, on [proxy-hosts create] with a port that is not a number and no
    other option but the domains. *)
Lemma create_witness :
  let args := ["proxy-hosts"; "create"; "--domains"; "app.example.com";
               "--forward-port"; "abc"] in
  let opts := Cli.parseArgs (drop 2 args) in
  let input := Cli.proxyHostInput opts in
  let p := process (start false 0 [tokenReply; listReply]) in
  (opts !! "forward-port" = Some "abc" /\ parseInt "abc" = NaN /\
   ~ In "--forward-host" (drop 2 args)) /\
  Cli.calls (snd (Cli.main args p)) = [CreateProxyHost input] /\
  getField input "forward_port" = Numeric (Num 80) /\
  getField input "forward_host" = Str EmptyString.
Proof.
  cbn zeta.
  assert (~ In "--forward-host"
            (drop 2 ["proxy-hosts"; "create"; "--domains"; "app.example.com";
                     "--forward-port"; "abc"])) as Hmiss.
  { cbn [drop In]. intros [H|[H|[H|[H|[]]]]]; discriminate H. }
  split; [split; [vm_compute; reflexivity|split; [reflexivity|exact Hmiss]]|].
  destruct (@CliFacts.create_is_not_validated runtime)
    as (Hcall & _ & Hdefaults & Hport).
  split; [|split].
  - exact (proj1 (Hcall ["proxy-hosts"; "create"; "--domains";
                         "app.example.com"; "--forward-port"; "abc"]
                    "proxy-hosts" _
                    (process (start false 0 [tokenReply; listReply]))
                    eq_refl eq_refl eq_refl)).
  - apply (Hport _ "abc"); vm_compute; reflexivity.
  - exact (proj1 (proj2 (proj2 (Hdefaults _))) Hmiss).
Defined.

End Runs.

(** * Further properties *)

(** ** Decimal ids *)

Module DigitsFacts.
Import Client Builtin StringFacts.

Lemma digit_cases (d : N) :
  (d < 10)%N ->
  d = 0%N \/ d = 1%N \/ d = 2%N \/ d = 3%N \/ d = 4%N \/ d = 5%N \/
  d = 6%N \/ d = 7%N \/ d = 8%N \/ d = 9%N.
Proof. lia. Qed.

Lemma digitValue_char (d : N) :
  (d < 10)%N -> digitValue 10 (pretty_N_char d) = Some (Z.of_N d).
Proof.
  intros H. destruct (digit_cases d H) as [->|[->|[->|[->|[->|[->|[->|[->|[->| ->]]]]]]]]];
    reflexivity.
Qed.

Lemma isDigit_char (d : N) : (d < 10)%N -> isDigit (pretty_N_char d) = true.
Proof.
  intros H. destruct (digit_cases d H) as [->|[->|[->|[->|[->|[->|[->|[->|[->| ->]]]]]]]]];
    reflexivity.
Qed.

Lemma allDigits_go (x : N) :
  forall s, allDigits s = true -> allDigits (pretty_N_go x s) = true.
Proof.
  induction (N.lt_wf_0 x) as [x _ IH]. intros s Hs.
  destruct (decide (0 < x)%N) as [Hpos|Hzero].
  - rewrite pretty_N_go_step by done. apply IH.
    + by apply N.div_lt.
    + cbn [allDigits]. rewrite isDigit_char; [done|].
      by apply N.mod_lt.
  - assert (x = 0%N) as -> by lia. by rewrite pretty_N_go_0.
Qed.

(** Reading the digits the printer writes gives the number back, put
    after what was read before. *)
Lemma readDigits_go (x : N) :
  forall s acc,
    (0 < x)%N ->
    exists k,
      readDigits 10 (pretty_N_go x s) acc
      = readDigits 10 s (Some (default 0 acc * 10 ^ k + Z.of_N x)) /\ 0 <= k.
Proof.
  induction (N.lt_wf_0 x) as [x _ IH]. intros s acc Hpos.
  rewrite pretty_N_go_step by done.
  assert (Z.of_N x = 10 * Z.of_N (x `div` 10) + Z.of_N (x `mod` 10)) as Hx.
  { pose proof (N.div_mod x 10). lia. }
  assert (x `mod` 10 < 10)%N as Hmod by (by apply N.mod_lt).
  destruct (decide (0 < x `div` 10)%N) as [Hdiv|Hdiv].
  - destruct (IH (x `div` 10)%N (N.div_lt x 10 Hpos eq_refl)
                (String (pretty_N_char (x `mod` 10)) s) acc Hdiv)
      as (k & -> & Hk).
    exists (k + 1). split; [|lia].
    cbn [readDigits]. rewrite digitValue_char by done.
    cbn [default from_option]. unfold id.
    f_equal. f_equal. rewrite Hx, Z.pow_add_r, Z.pow_1_r by lia. ring.
  - assert (x `div` 10 = 0)%N as Hzero by lia.
    rewrite Hzero, pretty_N_go_0. exists 1. split; [|lia].
    cbn [readDigits]. rewrite digitValue_char by done.
    f_equal. f_equal. rewrite Hx, Hzero, Z.pow_1_r. cbn [Z.of_N]. ring.
Qed.

Lemma readDigits_pretty_N (x : N) :
  readDigits 10 (pretty x) None = Some (Z.of_N x).
Proof.
  unfold pretty, pretty_N. destruct (decide (x = 0%N)) as [->|Hx]; [done|].
  destruct (readDigits_go x EmptyString None ltac:(lia)) as (k & -> & _).
  cbn [readDigits default from_option]. f_equal; lia.
Qed.

Lemma allDigits_pretty_N (x : N) : allDigits (pretty x) = true.
Proof.
  unfold pretty, pretty_N. destruct (decide (x = 0%N)); [done|].
  by apply allDigits_go.
Qed.

(** [parseInt] of a string of digits is what [readDigits] makes of it,
    and a leading minus sign negates it. *)
Lemma parseInt_allDigits (s : string) :
  allDigits s = true ->
  parseInt s
  = match readDigits 10 s None with Some n => Num n | None => NaN end
  /\ parseInt ("-" +:+ s)
     = match readDigits 10 s None with Some n => Num (- n) | None => NaN end.
Proof.
  destruct s as [|c rest]; [done|]. cbn [allDigits]. intros H.
  apply andb_true_iff in H as [Hc Hrest].
  assert (forall x r, rest = String x r ->
            Ascii.eqb x "x" || Ascii.eqb x "X" = false) as Hx.
  { intros x r ->. cbn [allDigits] in Hrest.
    apply andb_true_iff in Hrest as [Hd _]. revert Hd.
    destruct x as [[] [] [] [] [] [] [] []]; vm_compute; by intros. }
  change ("-" +:+ String c rest) with (String "-" (String c rest)).
  unfold parseInt. cbn [trimStart].
  change (isWhiteSpace "-") with false.
  destruct c as [[] [] [] [] [] [] [] []]; vm_compute in Hc;
    try discriminate Hc; clear Hc;
    match goal with
    | |- context [isWhiteSpace ?c] => change (isWhiteSpace c) with false
    end;
    lazy beta iota zeta;
    first [ by split
          | destruct rest as [|x r]; [by split|];
            rewrite (Hx x r eq_refl); by split ].
Qed.

(** Round trip: the decimal text of an integer parses back to it. *)
Lemma parseInt_pretty (z : Z) : parseInt (pretty z) = Num z.
Proof.
  destruct z as [|x|x].
  - reflexivity.
  - change (pretty (Z.pos x)) with (pretty (N.pos x)).
    rewrite (proj1 (parseInt_allDigits _ (allDigits_pretty_N (N.pos x)))).
    by rewrite readDigits_pretty_N.
  - change (pretty (Z.neg x)) with ("-" +:+ pretty (N.pos x)).
    rewrite (proj2 (parseInt_allDigits _ (allDigits_pretty_N (N.pos x)))).
    by rewrite readDigits_pretty_N.
Qed.

End DigitsFacts.

(** ** Options *)

Module ArgsFacts.
Import Client Builtin Cli StringFacts.







Lemma goodValue_true : goodValue "true".
Proof. by split. Qed.

Lemma parseArgsLoop_values (n : nat) :
  forall args result,
    (length args <= n)%nat ->
    map_Forall (fun _ v => goodValue v) result ->
    map_Forall (fun _ v => goodValue v) (parseArgsLoop args result).
Proof.
  induction n as [|n IH]; intros [|arg rest] result Hlen Hres;
    cbn [length] in Hlen; try done; try lia.
  cbn [parseArgsLoop].
  destruct (startsWith arg "--"); [|apply IH; [lia|done]].
  destruct rest as [|next rest'].
  - apply map_Forall_insert_2; [apply goodValue_true|done].
  - cbn [length] in Hlen.
    destruct (truthy_string next && negb (startsWith next "--")) eqn:Hval.
    + apply andb_true_iff in Hval as [Hne Hopt].
      apply truthy_string_true in Hne. apply negb_true_iff in Hopt.
      case_match; apply IH; cbn [length]; try lia;
        by apply map_Forall_insert_2.
    + cbn [String.eqb Ascii.eqb Bool.eqb negb].
      apply IH; [cbn [length]; lia|].
      apply map_Forall_insert_2; [apply goodValue_true|done].
Qed.

(** X2. Whatever [parseArgs] stores for an option is not the empty string
    and does not start with [--] (it is the next argument, or "true");
    so it is truthy, and [opts[k] || d] is the stored value whatever the
    default [d]: a default only ever stands in for an option that was not
    given. *)
Theorem option_values_are_values (args : list string) (k v d : string) :
  parseArgs args !! k = Some v ->
  v <> EmptyString /\ startsWith v "--" = false /\
  orString (parseArgs args !! k) d = v.
Proof.
  intros Hk.
  destruct (parseArgsLoop_values (length args) args ∅ (le_n _)
              (map_Forall_empty _) k v Hk) as [Hne Hopt].
  split; [done|]. split; [done|].
  rewrite Hk. cbn [orString]. apply truthy_string_true in Hne.
  by rewrite Hne.
Qed.




End ArgsFacts.

(** ** Domain lists *)

Module SplitFacts.
Import Client Builtin Cli StringFacts.

Lemma split_cons (sep : ascii) (s : string) :
  exists piece pieces, split sep s = piece :: pieces.
Proof.
  induction s as [|c s (piece & pieces & IH)]; cbn [split]; [eauto|].
  destruct (Ascii.eqb c sep); [eauto|]. rewrite IH. eauto.
Qed.

Lemma joinWith_cons (sep piece : string) (pieces : list string) :
  pieces <> [] ->
  joinWith sep (piece :: pieces) = piece +:+ sep +:+ joinWith sep pieces.
Proof. by destruct pieces. Qed.

(** Joining the pieces with the separator gives the string back. *)
Lemma joinWith_split (sep : ascii) (s : string) :
  joinWith (String sep EmptyString) (split sep s) = s.
Proof.
  induction s as [|c s IH]; [done|]. cbn [split].
  destruct (split_cons sep s) as (piece & pieces & Hs).
  destruct (Ascii.eqb_spec c sep) as [->|Hne].
  - rewrite joinWith_cons by (by rewrite Hs). by rewrite IH.
  - rewrite Hs in IH |- *. destruct pieces as [|piece' pieces].
    + cbn [joinWith] in IH |- *. by rewrite IH.
    + rewrite joinWith_cons in IH |- * by done.
      change (String c piece +:+ String sep EmptyString
              +:+ joinWith (String sep EmptyString) (piece' :: pieces))
        with (String c (piece +:+ String sep EmptyString
              +:+ joinWith (String sep EmptyString) (piece' :: pieces))).
      by rewrite IH.
Qed.

Lemma includes_char_cons (sep c : ascii) (s : string) :
  includes (String c s) (String sep EmptyString)
  = Ascii.eqb c sep || includes s (String sep EmptyString).
Proof.
  cbn [includes String.prefix].
  destruct (Ascii.eqb_spec c sep) as [->|Hne].
  - destruct (Ascii.ascii_dec sep sep); [|done]. by destruct s.
  - destruct (Ascii.ascii_dec sep c) as [->|]; [done|]. done.
Qed.

(** No piece contains the separator. *)
Lemma split_pieces (sep : ascii) (s : string) :
  Forall (fun piece => includes piece (String sep EmptyString) = false)
    (split sep s).
Proof.
  induction s as [|c s IH]; cbn [split]; [by repeat constructor|].
  destruct (Ascii.eqb_spec c sep) as [->|Hne]; [by constructor|].
  destruct (split sep s) as [|piece pieces].
  - repeat constructor. rewrite includes_char_cons.
    apply Ascii.eqb_neq in Hne. by rewrite Hne.
  - inversion IH as [|? ? Hpiece Hpieces]; subst. constructor; [|done].
    rewrite includes_char_cons. apply Ascii.eqb_neq in Hne.
    by rewrite Hne.
Qed.

(** X4. The [domain_names] of the three [create] subcommands that take
    [--domains]: without the option it is the empty array; with the option
    it is the array of the pieces of its value between commas, which is
    never empty, whose pieces contain no comma, and which joined with
    commas gives the value back. Nothing is trimmed or dropped, so
    [a,,b] gives an empty domain name in the middle. *)
Theorem domains_are_split_at_commas (opts : gmap string string) :
  match opts !! "domains" with
  | None => domainsOf opts = Arr []
  | Some v =>
      exists pieces,
        domainsOf opts = Arr (Str <$> pieces) /\
        pieces <> [] /\
        joinWith "," pieces = v /\
        Forall (fun piece => includes piece "," = false) pieces
  end /\
  getField (proxyHostInput opts) "domain_names" = domainsOf opts /\
  getField (redirectionHostInput opts) "domain_names" = domainsOf opts /\
  getField (deadHostInput opts) "domain_names" = domainsOf opts.
Proof.
  split; [|done]. unfold domainsOf.
  destruct (opts !! "domains") as [v|]; [|done].
  exists (split "," v). split; [done|]. split.
  - by destruct (split_cons "," v) as (piece & pieces & ->).
  - split; [apply (joinWith_split ","%char)|apply (split_pieces ","%char)].
Qed.

End SplitFacts.

(** ** More on the client *)

Module ClientMore.
Import Client Builtin StringFacts ClientFacts.

Section WithRuntime.
Context `{RT : Runtime}.

(** A mutating method refuses to run on a readonly client. *)
Lemma invoke_readonly (o : Op) (st : Client.State) :
  mutating o = true -> _readonly (client st) = true ->
  invoke o st = (Abrupt (ReadonlyModeError (opName o)), st).
Proof.
  intros Hm Hro.
  destruct (mutating_requestOf o Hm) as (m & p & b & Hreq).
  rewrite (invoke_shape o m p b Hreq). unfold guarded.
  rewrite Hm. unfold bind.
  by rewrite (assertWritable_readonly _ _ Hro).
Qed.

(** X5. One call of a client method sends at most two requests, at most
    one of them a token request and at most one of them anything else:
    nothing is retried, whatever the service answers. *)
Theorem no_retry (o : Op) (st : Client.State) :
  exists new,
    sent (snd (invoke o st)) = sent st ++ new /\
    (length new <= 2)%nat /\
    (countTokenRequests (client st) new <= 1)%nat /\
    (length new - countTokenRequests (client st) new <= 1)%nat.
Proof.
  exists (requestsOf o st). split; [apply sent_invoke|].
  unfold requestsOf, countTokenRequests.
  destruct (requestOf o) as [[[m p] b]|] eqn:Hreq.
  - destruct (mutating o && _readonly (client st)); [cbn; lia|].
    destruct (cachedToken (client st) (Date_now (world st))) as [tok|].
    + cbn [length List.filter].
      rewrite (isTokenRequest_resourceRequest _ _ o tok m p b eq_refl Hreq).
      cbn [length]. lia.
    + cbn [length List.filter]. rewrite isTokenRequest_tokenRequest.
      pose proof (keeps_authenticate st) as (Hbase & _).
      destruct (authenticate st) as [[tok|e] st1]; cbn [snd] in Hbase.
      * cbn [length List.filter].
        rewrite (isTokenRequest_resourceRequest _ _ o tok m p b Hbase Hreq).
        cbn [length]. lia.
      * cbn [length List.filter]. lia.
  - cbn [length List.filter].
    destruct (isTokenRequest (client st) (healthRequest (client st)));
      cbn [length]; lia.
Qed.

(** X6. When [fetch] itself rejects, the error reaches the caller as it
    is, and nothing more is sent: for a resource request, for the token
    request that comes before it, and for the health request. *)
Theorem network_errors_propagate :
  (forall o m p b st st1 tok e w,
     requestOf o = Some (m, p, b) -> admitted o st ->
     ensureToken st = (Normal tok, st1) ->
     fetch (world st1) (resourceRequest (client st1) tok m p b)
     = (Abrupt e, w) ->
     invoke o st
     = (Abrupt e, afterFetch st1 (resourceRequest (client st1) tok m p b) w)) /\
  (forall o m p b st e w,
     requestOf o = Some (m, p, b) -> admitted o st ->
     cachedToken (client st) (Date_now (world st)) = None ->
     fetch (world st) (tokenRequest (client st)) = (Abrupt e, w) ->
     invoke o st = (Abrupt e, afterFetch st (tokenRequest (client st)) w)) /\
  (forall st e w,
     fetch (world st) (healthRequest (client st)) = (Abrupt e, w) ->
     invoke GetHealth st
     = (Abrupt e, afterFetch st (healthRequest (client st)) w)).
Proof.
  split; [|split].
  - intros o m p b st st1 tok e w Hreq Hadm Htok Hfetch.
    rewrite (invoke_admitted o m p b st Hreq Hadm). apply finish_abrupt.
    rewrite (request_with_token m p b st st1 tok Htok). cbn zeta.
    by rewrite Hfetch.
  - intros o m p b st e w Hreq Hadm Hc Hfetch.
    rewrite (invoke_admitted o m p b st Hreq Hadm). apply finish_abrupt.
    apply request_without_token.
    rewrite (ensureToken_uncached st Hc), authenticate_eq. cbn zeta.
    by rewrite Hfetch.
  - intros st e w Hfetch. unfold invoke, getHealth.
    unfold request, ensureToken, authenticate, assertWritable, decode, json,
      doFetch, storeToken, this, now, bind, ret, throw.
    by rewrite Hfetch.
Qed.

(** X7. The success path of [request]: on a 2xx status other than 204 the
    body is parsed as JSON, and the call returns the parsed value, or
    nothing for the methods declared to return [void]; if the body is not
    JSON, the error of the parser is what the caller gets, also for a
    [delete], [enable] or [disable] that the service has carried out. *)
Theorem success_returns_decoded_body (o : Op) (m p : string) (b : Value)
    (st st1 : Client.State) (tok : string) (response : Response)
    (w : World) :
  requestOf o = Some (m, p, b) -> admitted o st ->
  ensureToken st = (Normal tok, st1) ->
  fetch (world st1) (resourceRequest (client st1) tok m p b)
  = (Normal response, w) ->
  ok response = true -> status response <> 204 ->
  invoke o st
  = (match JSON_parse (text response) with
     | Normal v => Normal (if returnsVoid o then Undefined else v)
     | Abrupt e => Abrupt e
     end,
     afterFetch st1 (resourceRequest (client st1) tok m p b) w).
Proof.
  intros Hreq Hadm Htok Hfetch Hok Hstatus.
  rewrite (invoke_admitted o m p b st Hreq Hadm).
  assert (request m p b st
          = (JSON_parse (text response),
             afterFetch st1 (resourceRequest (client st1) tok m p b) w))
    as Hr.
  { rewrite (request_with_token m p b st st1 tok Htok). cbn zeta.
    rewrite Hfetch, decode_eq, Hok.
    apply Z.eqb_neq in Hstatus. by rewrite Hstatus. }
  destruct (JSON_parse (text response)) as [v|e].
  - by apply finish_normal.
  - by apply finish_abrupt.
Qed.

(** *** A readonly client only reads *)

Lemma requestOf_read (o : Op) (m p : string) (b : Value) :
  requestOf o = Some (m, p, b) -> mutating o = false ->
  m = "GET" /\ b = Undefined.
Proof. destruct o; intros [= <- <- <-] Hm; by try discriminate Hm. Qed.

Lemma readOnly_requestsOf (o : Op) (st : Client.State) :
  _readonly (client st) = true ->
  Forall (readOnlyRequest (client st)) (requestsOf o st).
Proof.
  intros Hro. unfold requestsOf.
  destruct (requestOf o) as [[[m p] b]|] eqn:Hreq.
  - rewrite Hro, andb_true_r. destruct (mutating o) eqn:Hm; [constructor|].
    destruct (requestOf_read o m p b Hreq Hm) as [-> ->].
    assert (forall c tok,
              readOnlyRequest (client st)
                (resourceRequest c tok "GET" p Undefined)) as Hres
      by (intros c tok; by right).
    destruct (cachedToken (client st) (Date_now (world st))) as [tok|].
    + constructor; [apply Hres|constructor].
    + constructor; [by left|].
      destruct (authenticate st) as [[tok|e] st1];
        [constructor; [apply Hres|constructor]|constructor].
  - constructor; [by right|constructor].
Qed.

Lemma tokenRequest_sameConfig (c c' : NpmApiClient) :
  sameConfig c c' -> tokenRequest c' = tokenRequest c.
Proof.
  intros (Hb & He & Hp & _). unfold tokenRequest. by rewrite Hb, He, Hp.
Qed.

(** X8. A readonly client stays readonly and only reads: in every state
    reached from a readonly client by any calls of its methods, with any
    answers of the service in between, the flag is still set, and every
    request sent since is either the token request or a GET without a
    body. *)
Theorem readonly_client_only_reads (st st' : Client.State) :
  _readonly (client st) = true ->
  reaches st st' ->
  _readonly (client st') = true /\
  exists new,
    sent st' = sent st ++ new /\
    Forall (readOnlyRequest (client st)) new.
Proof.
  intros Hro Hreach.
  assert (sameConfig (client st) (client st') /\
          exists new,
            sent st' = sent st ++ new /\
            Forall (readOnlyRequest (client st)) new) as [Hsame Hnew].
  { induction Hreach as [st|st st' o Hreach IH|st st' w Hreach IH].
    - split; [apply sameConfig_refl|]. exists []. by rewrite app_nil_r.
    - destruct (IH Hro) as (Hsame & new & Hsent & Hall).
      split; [eapply sameConfig_trans; [exact Hsame|apply keeps_invoke]|].
      exists (new ++ requestsOf o st'). split.
      + by rewrite sent_invoke, Hsent, <- app_assoc.
      + apply Forall_app. split; [done|].
        assert (_readonly (client st') = true) as Hro'
          by (destruct Hsame as (_ & _ & _ & ->); done).
        eapply Forall_impl; [apply (readOnly_requestsOf o st' Hro')|].
        intros r [->|Hget]; [left|by right].
        by apply tokenRequest_sameConfig.
    - by apply IH. }
  split; [|done]. by destruct Hsame as (_ & _ & _ & ->).
Qed.

End WithRuntime.
End ClientMore.

(** ** Routes *)

Module RouteFacts.
Import Client Builtin StringFacts ClientFacts.

Lemma string_app_inv_tail (s t u : string) : s +:+ u = t +:+ u -> s = t.
Proof.
  revert t. induction s as [|a s IH]; intros [|b t] H.
  - done.
  - apply (f_equal String.length) in H.
    rewrite !string_app_length in H. cbn [String.length] in H. lia.
  - apply (f_equal String.length) in H.
    rewrite !string_app_length in H. cbn [String.length] in H. lia.
  - change (String a (s +:+ u) = String b (t +:+ u)) in H.
    injection H as -> H. f_equal. by apply IH.
Qed.

(** Two paths that end differently are different. *)
Lemma enable_not_disable (s t : string) :
  s +:+ "/enable" <> t +:+ "/disable".
Proof.
  revert t. induction s as [|a s IH]; intros t H.
  - apply (f_equal String.length) in H. rewrite !string_app_length in H.
    cbn [String.length] in H. lia.
  - destruct t as [|b t].
    + change (String a (s +:+ "/enable") = "/disable") in H.
      injection H as -> H.
      assert (s = EmptyString) as ->.
      { apply (f_equal String.length) in H. rewrite string_app_length in H.
        cbn [String.length] in H. destruct s; [done|cbn [String.length] in H; lia]. }
      discriminate H.
    + change (String a (s +:+ "/enable") = String b (t +:+ "/disable")) in H.
      injection H as _ H. by apply (IH t).
Qed.

Section WithRuntime.
Context `{RT : Runtime}.

Ltac name_ids H :=
  repeat match type of H with
         | context [idString ?i +:+ ?suffix] =>
             let x := fresh "tail" in
             remember (idString i +:+ suffix) as x
         | context [idString ?i] =>
             let x := fresh "tail" in remember (idString i) as x
         end.

(** X9. No two methods share a route: if two calls send the same HTTP
    method to the same path, they are calls of the same client method
    with the same id. So the remote operation is determined by the verb
    and the path, and the [enable], [disable] and [renew] actions cannot
    be mistaken for one another or for an update. *)
Theorem routes_are_distinct (o1 o2 : Op) (m p : string) (b1 b2 : Value) :
  requestOf o1 = Some (m, p, b1) ->
  requestOf o2 = Some (m, p, b2) ->
  opName o1 = opName o2 /\ opId o1 = opId o2.
Proof.
  intros H1 H2.
  assert (fst <$> requestOf o1 = fst <$> requestOf o2) as H
    by (by rewrite H1, H2).
  clear H1 H2.
  destruct o1, o2; cbn [requestOf fmap option_fmap option_map fst] in H;
    try discriminate H;
    try (split; reflexivity);
    apply (f_equal (fun x => from_option snd EmptyString x)) in H;
    cbn [from_option snd] in H; rename H into Hp;
    name_ids Hp; cbv [String.append] in Hp;
    try discriminate Hp;
    simplify_eq;
    try match goal with
        | H : idString _ = idString _ |- _ => apply (inj pretty) in H; subst
        | H : ?s +:+ ?u = ?t +:+ ?u |- _ =>
            apply string_app_inv_tail, (inj pretty) in H; subst
        end;
    try (split; reflexivity).
  all: try (exfalso; match goal with
                     | H : _ +:+ "/enable" = _ +:+ "/disable" |- _ =>
                         exact (enable_not_disable _ _ H)
                     | H : _ +:+ "/disable" = _ +:+ "/enable" |- _ =>
                         exact (enable_not_disable _ _ (eq_sym H))
                     end).
Qed.

End WithRuntime.
End RouteFacts.

(** ** More on the command-line dispatcher *)

Module CliMore.
Import Client Builtin Cli StringFacts.

Section WithRuntime.
Context `{RT : Runtime}.

(** The id printed in decimal is read back as that id. *)
Lemma parseId_idString (command subcommand : string) (n : Z)
    (rest : list string) (p : Process) :
  parseId (command :: subcommand :: idString n :: rest) p = (Normal n, p).
Proof.
  unfold parseId. change ((command :: subcommand :: idString n :: rest) !! 2%nat)
    with (Some (idString n)).
  cbn [parseIntOf]. unfold idString. by rewrite DigitsFacts.parseInt_pretty.
Qed.

Lemma getAndPrint_id (args : list string) (method : Z -> Op) (n : Z)
    (p : Process) :
  parseId args p = (Normal n, p) ->
  getAndPrint args method p =
  match invoke (method n) (run p) with
  | (Normal v, st) =>
      (Normal tt,
       withOutput (JSON_stringify_indented v) (afterCall (method n) st p))
  | (Abrupt e, st) => (Abrupt e, afterCall (method n) st p)
  end.
Proof.
  intros Hid. unfold getAndPrint, bindP, call. rewrite Hid.
  by destruct (invoke (method n) (run p)) as [[v|e] st].
Qed.

Lemma actAndReport_id (args : list string) (method : Z -> Op)
    (what done : string) (n : Z) (p : Process) :
  parseId args p = (Normal n, p) ->
  actAndReport args method what done p =
  match invoke (method n) (run p) with
  | (Normal v, st) =>
      (Normal tt,
       withOutput (what +:+ " " +:+ idString n +:+ " " +:+ done)
         (afterCall (method n) st p))
  | (Abrupt e, st) => (Abrupt e, afterCall (method n) st p)
  end.
Proof.
  intros Hid. unfold actAndReport, bindP, call. rewrite Hid.
  by destruct (invoke (method n) (run p)) as [[v|e] st].
Qed.

(** What an id-taking subcommand does once the id is read: it calls the
    method, and prints one line if the call returns, the value for [get]
    and [renew] and a sentence about the id for the others. *)
Lemma dispatch_id (args : list string) (command subcommand : string)
    (method : Z -> Op) (n : Z) (p : Process) :
  args !! 0%nat = Some command ->
  args !! 1%nat = Some subcommand ->
  idMethod command subcommand = Some method ->
  parseId args p = (Normal n, p) ->
  match invoke (method n) (run p) with
  | (Normal v, st) =>
      exists line,
        dispatch args p
        = (Normal tt, withOutput line (afterCall (method n) st p)) /\
        if String.eqb subcommand "get" || String.eqb subcommand "renew"
        then line = JSON_stringify_indented v
        else exists what,
               line = what +:+ " " +:+ idString n +:+ " " +:+ subcommand
                      +:+ "d"
  | (Abrupt e, st) => dispatch args p = (Abrupt e, afterCall (method n) st p)
  end.
Proof.
  intros Hc Hs Hm Hid. unfold dispatch. rewrite Hc, Hs.
  unfold strictEq. revert Hm. unfold idMethod.
  repeat match goal with
         | |- context [String.eqb command ?lit] =>
             destruct (String.eqb_spec command lit) as [->|_]
         end; cbn [String.eqb Ascii.eqb Bool.eqb]; try discriminate;
  repeat match goal with
         | |- context [String.eqb subcommand ?lit] =>
             destruct (String.eqb_spec subcommand lit) as [->|_]
         end; cbn [String.eqb Ascii.eqb Bool.eqb]; try discriminate;
  intros [= <-];
  first [ rewrite (getAndPrint_id args _ n p Hid)
        | rewrite (actAndReport_id args _ _ _ n p Hid) ];
  (destruct (invoke _ (run p)) as [[v|e] st];
   [eexists; (split; [reflexivity|]);
    cbn [String.eqb Ascii.eqb Bool.eqb orb];
    first [reflexivity | eexists; reflexivity]
   |reflexivity]).
Qed.


Lemma idMethod_mutating (command subcommand : string) (method : Z -> Op)
    (n : Z) :
  idMethod command subcommand = Some method ->
  mutating (method n) = negb (String.eqb subcommand "get").
Proof.
  unfold idMethod.
  repeat match goal with
         | |- context [String.eqb command ?lit] =>
             destruct (String.eqb_spec command lit) as [->|_]
         end; try discriminate;
  repeat match goal with
         | |- context [String.eqb subcommand ?lit] =>
             destruct (String.eqb_spec subcommand lit) as [->|_]
         end; try discriminate; by intros [= <-].
Qed.

Lemma createCall_mutating (command : string) (opts : gmap string string)
    (o : Op) :
  createCall command opts = Some o -> mutating o = true.
Proof.
  unfold createCall. repeat case_match; try discriminate; by intros [= <-].
Qed.

Lemma dispatch_create_result (args : list string) (command : string) (o : Op)
    (p : Process) :
  args !! 0%nat = Some command ->
  args !! 1%nat = Some "create" ->
  createCall command (parseArgs (drop 2 args)) = Some o ->
  dispatch args p =
  match invoke o (run p) with
  | (Normal v, st) =>
      (Normal tt, withOutput (JSON_stringify_indented v) (afterCall o st p))
  | (Abrupt e, st) => (Abrupt e, afterCall o st p)
  end.
Proof.
  intros Hc Hs. unfold dispatch, createCall. rewrite Hc, Hs.
  unfold strictEq.
  repeat match goal with
         | |- context [String.eqb command ?lit] =>
             destruct (String.eqb_spec command lit) as [->|_]
         end; try discriminate; intros [= <-];
  cbn [String.eqb Ascii.eqb Bool.eqb];
  unfold createAndPrint, bindP, call;
  by destruct (invoke _ (run p)) as [[v|e] st].
Qed.

(** X11. In readonly mode every subcommand that changes something exits
    with code 1, prints the readonly error to standard error and leaves
    the client as it was, nothing sent: the id-taking subcommands other
    than [get], and the [create] subcommands. The message printed
    contains "readonly mode". *)
Theorem readonly_cli_exits_with_1 :
  (forall command subcommand method n rest p,
     idMethod command subcommand = Some method ->
     subcommand <> "get" ->
     _readonly (client (run p)) = true ->
     let o := method n in
     main (command :: subcommand :: idString n :: rest) p
     = (1, withError ("Error: " +:+ message (ReadonlyModeError (opName o)))
             (afterCall o (run p) p))) /\
  (forall args command o p,
     args !! 0%nat = Some command ->
     args !! 1%nat = Some "create" ->
     createCall command (parseArgs (drop 2 args)) = Some o ->
     _readonly (client (run p)) = true ->
     main args p
     = (1, withError ("Error: " +:+ message (ReadonlyModeError (opName o)))
             (afterCall o (run p) p))) /\
  (forall operation,
     includes ("Error: " +:+ message (ReadonlyModeError operation))
       "readonly mode" = true).
Proof.
  split; [|split].
  - intros command subcommand method n rest p Hm Hget Hro o.
    assert (mutating o = true) as Hmut.
    { unfold o. rewrite (idMethod_mutating command subcommand method n Hm).
      apply negb_true_iff. by apply String.eqb_neq. }
    pose proof (dispatch_id (command :: subcommand :: idString n :: rest)
                  command subcommand method n p eq_refl eq_refl Hm
                  (parseId_idString command subcommand n rest p)) as Hd.
    fold o in Hd. rewrite (ClientMore.invoke_readonly o (run p) Hmut Hro) in Hd.
    unfold main. by rewrite Hd.
  - intros args command o p Hc Hs Hcall Hro.
    unfold main.
    rewrite (dispatch_create_result args command o p Hc Hs Hcall).
    by rewrite (ClientMore.invoke_readonly o (run p)
                  (createCall_mutating _ _ o Hcall) Hro).
  - intros operation. apply includes_app_r.
    apply ClientFacts.ReadonlyModeError_phrase.
Qed.

(** X12. Unknown input is not an error. An unknown or missing command
    prints the usage text to standard output; a known command other than
    [status] with an unknown or missing subcommand prints
    [Usage: <command> [<its subcommands joined with |>]] to standard
    error. Either way no client method is called and the exit code
    is 0. *)
Theorem unknown_input_prints_usage :
  (forall args p,
     (forall command, args !! 0%nat = Some command -> ~ In command commands) ->
     main args p = (0, withOutput usage p)) /\
  (forall args command p,
     args !! 0%nat = Some command ->
     In command commands -> command <> "status" ->
     (forall subcommand,
        args !! 1%nat = Some subcommand ->
        ~ In subcommand (subcommandsOf command)) ->
     main args p
     = (0, withError ("Usage: " +:+ command +:+ " ["
                      +:+ joinWith "|" (subcommandsOf command) +:+ "]") p)).
Proof.
  split.
  - intros args p Hunknown. unfold main, dispatch.
    destruct (args !! 0%nat) as [command|]; [|done].
    specialize (Hunknown command eq_refl). unfold strictEq, commands in *.
    cbn [In] in Hunknown.
    repeat match goal with
           | |- context [String.eqb command ?lit] =>
               destruct (String.eqb_spec command lit) as [->|_]
           end; try done; exfalso; apply Hunknown; auto 10.
  - intros args command p Hc Hin Hstatus Hsub. unfold main, dispatch.
    rewrite Hc. unfold commands in Hin. cbn [In] in Hin.
    assert (forall lit, In lit (subcommandsOf command) ->
              strictEq (args !! 1%nat) lit = false) as Hno.
    { intros lit Hlit. unfold strictEq.
      destruct (args !! 1%nat) as [subcommand|]; [|done].
      apply String.eqb_neq. intros ->. by apply (Hsub lit). }
    destruct Hin as [<-|[<-|[<-|[<-|[<-|[<-|[<-|[<-|[]]]]]]]]];
      try done; cbn [strictEq String.eqb Ascii.eqb Bool.eqb];
      rewrite ?Hno by (vm_compute; auto 10); reflexivity.
Qed.

(** *** One client call at most *)

Lemma one_call_print (line : string) : OneCall (console_log line).
Proof. intros p. by left. Qed.

Lemma one_call_error (line : string) : OneCall (console_error line).
Proof. intros p. by left. Qed.

Lemma one_call_list (o : Op) : OneCall (listAndPrint o).
Proof.
  intros p. right. exists o. unfold listAndPrint, bindP, call.
  by destruct (invoke o (run p)) as [[v|e] st].
Qed.

Lemma one_call_get (args : list string) (method : Z -> Op) :
  OneCall (getAndPrint args method).
Proof.
  intros p. unfold getAndPrint, bindP, parseId.
  destruct (parseIntOf (args !! 2%nat)) as [|id]; [by left|].
  right. exists (method id). unfold retP, call.
  by destruct (invoke (method id) (run p)) as [[v|e] st].
Qed.

Lemma one_call_act (args : list string) (method : Z -> Op)
    (what done : string) :
  OneCall (actAndReport args method what done).
Proof.
  intros p. unfold actAndReport, bindP, parseId.
  destruct (parseIntOf (args !! 2%nat)) as [|id]; [by left|].
  right. exists (method id). unfold retP, call.
  by destruct (invoke (method id) (run p)) as [[v|e] st].
Qed.

Lemma one_call_create (args : list string)
    (input : gmap string string -> Value) (method : Value -> Op) :
  OneCall (createAndPrint args input method).
Proof.
  intros p. right. exists (method (input (parseArgs (drop 2 args)))).
  unfold createAndPrint, bindP, call. cbv zeta.
  by destruct (invoke _ (run p)) as [[v|e] st].
Qed.

Lemma one_call_status : OneCall status.
Proof.
  intros p. right. exists GetHealth. unfold status, bindP, call.
  by destruct (invoke GetHealth (run p)) as [[v|e] st].
Qed.

Lemma one_call_dispatch (args : list string) : OneCall (dispatch args).
Proof.
  unfold dispatch.
  repeat case_match;
    auto using one_call_print, one_call_error, one_call_list, one_call_get,
      one_call_act, one_call_create, one_call_status.
Qed.

(** X13. One invocation of the CLI calls at most one client method, and
    does nothing else to the client: either no method is called and the
    client is as before, or exactly one is, the client ends in the state
    that call leaves, and at most two requests were sent. *)
Theorem one_client_call_per_invocation (args : list string) (p : Process) :
  (calls (snd (main args p)) = calls p /\
   run (snd (main args p)) = run p) \/
  exists o,
    calls (snd (main args p)) = calls p ++ [o] /\
    run (snd (main args p)) = snd (invoke o (run p)) /\
    sent (run (snd (main args p))) = sent (run p) ++ requestsOf o (run p) /\
    (length (requestsOf o (run p)) <= 2)%nat.
Proof.
  assert (calls (snd (main args p)) = calls (snd (dispatch args p)) /\
          run (snd (main args p)) = run (snd (dispatch args p))) as [-> ->].
  { unfold main. by destruct (dispatch args p) as [[v|e] p']. }
  destruct (one_call_dispatch args p) as [H|(o & Hcalls & Hrun)]; [by left|].
  right. exists o. split; [done|]. split; [done|].
  split; [rewrite Hrun; apply ClientFacts.sent_invoke|].
  unfold requestsOf. repeat case_match; cbn [length]; lia.
Qed.

(** *** The status command *)

Lemma lookupField_setField (k : string) (v : Value)
    (fields : list (string * Value)) :
  lookupField k (setField k v fields) = v.
Proof.
  induction fields as [|[k' v'] fields IH]; cbn [setField lookupField].
  - by rewrite String.eqb_refl.
  - destruct (String.eqb_spec k' k) as [->|Hne]; cbn [lookupField].
    + by rewrite String.eqb_refl.
    + apply String.eqb_neq in Hne. by rewrite Hne.
Qed.

Lemma lookupField_setField_ne (k k0 : string) (v : Value)
    (fields : list (string * Value)) :
  k0 <> k -> lookupField k0 (setField k v fields) = lookupField k0 fields.
Proof.
  intros Hne. induction fields as [|[k' v'] fields IH];
    cbn [setField lookupField].
  - apply not_eq_sym, String.eqb_neq in Hne. by rewrite Hne.
  - destruct (String.eqb_spec k' k) as [->|Hk]; cbn [lookupField].
    + apply not_eq_sym, String.eqb_neq in Hne. by rewrite Hne.
    + destruct (String.eqb k' k0); [done|exact IH].
Qed.

(** X14. The [status] command calls [getHealth]; if it returns it prints
    the health object with an [mcp_server] property added, and exits
    with 0, otherwise it prints the error and exits with 1. The added
    property holds the readonly flag and the mode, "readonly" or
    "read-write"; it replaces a property of that name in the health
    object, and every other property is the health object's. *)
Theorem status_reports_mode :
  (forall rest p,
     match invoke GetHealth (run p) with
     | (Normal health, st) =>
         main ("status" :: rest) p
         = (0, withOutput
                 (JSON_stringify_indented
                    (statusObject health (isReadonly (client (run p)))))
                 (afterCall GetHealth st p))
     | (Abrupt e, st) =>
         main ("status" :: rest) p
         = (1, withError ("Error: " +:+ message e) (afterCall GetHealth st p))
     end) /\
  (forall fields ro,
     getField (statusObject (Obj fields) ro) "mcp_server"
     = Obj [("readonly", Boolean ro);
            ("mode", Str (if ro then "readonly" else "read-write"))] /\
     forall k,
       k <> "mcp_server" ->
       getField (statusObject (Obj fields) ro) k = getField (Obj fields) k).
Proof.
  split.
  - intros rest p. unfold main, dispatch.
    change (("status" :: rest) !! 0%nat) with (Some "status").
    cbn [strictEq String.eqb Ascii.eqb Bool.eqb].
    unfold status, bindP, call, readonly.
    pose proof (ClientFacts.keeps_getHealth (run p)) as (_ & _ & _ & Hro).
    change getHealth with (invoke GetHealth) in Hro.
    destruct (invoke GetHealth (run p)) as [[health|e] st]; [|done].
    cbn [snd] in Hro. cbn [run]. unfold isReadonly, print, console_log.
    cbn [run stdout stderr calls]. by rewrite Hro.
  - intros fields ro. unfold statusObject. cbn [getField spread]. split.
    + apply lookupField_setField.
    + intros k Hk. by apply lookupField_setField_ne.
Qed.

End WithRuntime.

(** *** Start-up *)

(** X15. Start-up of the two entry points. Both make the same client, or
    none, from the environment, and write the same lines, except that the
    tool server announces readonly mode once it has a client. The client
    is made exactly when [NPM_EMAIL] and [NPM_PASSWORD] are both set and
    not empty, from those, the URL without a trailing slash and the
    readonly flag; otherwise the one line written is the error about the
    credentials. An unset or empty [NPM_URL] stands for
    [http://localhost:81]. *)
Theorem startup_needs_credentials (env : Env) :
  Index.startup env
  = (if NPM_READONLY env && bool_decide (is_Some (snd (Cli.startup env)))
     then ["Nginx Proxy Manager MCP Server running in READONLY mode"]
     else fst (Cli.startup env),
     snd (Cli.startup env)) /\
  ((exists mail pw,
      env !! "NPM_EMAIL" = Some mail /\ mail <> EmptyString /\
      env !! "NPM_PASSWORD" = Some pw /\ pw <> EmptyString /\
      Cli.startup env
      = ([], Some {| baseUrl := stripTrailingSlash (NPM_URL env);
                     token := None; tokenExpires := None;
                     email := mail; password := pw;
                     _readonly := NPM_READONLY env |})) \/
   ((env !! "NPM_EMAIL" = None \/ env !! "NPM_EMAIL" = Some EmptyString \/
     env !! "NPM_PASSWORD" = None \/
     env !! "NPM_PASSWORD" = Some EmptyString) /\
    Cli.startup env
    = (["Error: NPM_EMAIL and NPM_PASSWORD environment variables are required"],
       None))) /\
  ((env !! "NPM_URL" = None \/ env !! "NPM_URL" = Some EmptyString) ->
   NPM_URL env = "http://localhost:81").
Proof.
  split; [|split].
  - unfold Index.startup, Cli.startup.
    change (Index.NPM_EMAIL env) with (NPM_EMAIL env).
    change (Index.NPM_PASSWORD env) with (NPM_PASSWORD env).
    change (Index.NPM_READONLY env) with (NPM_READONLY env).
    change (Index.NPM_URL env) with (NPM_URL env).
    destruct (negb (truthy_string (NPM_EMAIL env))
              || negb (truthy_string (NPM_PASSWORD env))); cbn [fst snd].
    + by rewrite andb_false_r.
    + rewrite bool_decide_eq_true_2 by eauto. rewrite andb_true_r.
      by destruct (NPM_READONLY env).
  - unfold Cli.startup, NPM_EMAIL, NPM_PASSWORD, orString.
    destruct (env !! "NPM_EMAIL") as [mail|]; [|right; split; [auto|done]].
    destruct (truthy_string mail) eqn:Hm.
    + destruct (env !! "NPM_PASSWORD") as [pw|];
        [|right; rewrite Hm; split; [auto|done]].
      destruct (truthy_string pw) eqn:Hp.
      * left. exists mail, pw. rewrite Hm, Hp. cbn [negb orb].
        apply truthy_string_true in Hm, Hp. by repeat split.
      * right. rewrite Hm. cbn [negb orb truthy_string String.eqb].
        split; [|done]. do 3 right. f_equal.
        unfold truthy_string in Hp. apply negb_false_iff in Hp.
        by apply String.eqb_eq.
    + right. cbn [truthy_string String.eqb negb orb]. split; [|done].
      right; left. f_equal. unfold truthy_string in Hm.
      apply negb_false_iff in Hm. by apply String.eqb_eq.
  - unfold NPM_URL, orString. by intros [->| ->].
Qed.

End CliMore.

(** ** The tools *)

Module ToolFacts.
Import Client Builtin Index StringFacts.

Section WithRuntime.
Context `{RT : Runtime}.

Lemma respond_invoke (o : Op) (render : Value -> string)
    (st : Client.State) :
  snd (respond o render st) = snd (invoke o st) /\
  match fst (invoke o st) with
  | Normal v =>
      fst (respond o render st)
      = {| resultText := render v; isError := false |}
  | Abrupt e => fst (respond o render st) = errorResult e
  end.
Proof. unfold respond. by destruct (invoke o st) as [[v|e] st']. Qed.

(** Every handler is one call of its client method, whose error, if
    any, becomes the result. *)
Lemma callTool_invoke (t : Tool) (st : Client.State) :
  snd (callTool t st) = snd (invoke (toolOp t) st) /\
  match fst (invoke (toolOp t) st) with
  | Normal v => isError (fst (callTool t st)) = false
  | Abrupt e => fst (callTool t st) = errorResult e
  end.
Proof.
  destruct t; cbn [callTool toolOp];
    try (match goal with
         | |- context [respond ?o ?render st] =>
             destruct (respond_invoke o render st) as [-> H];
             split; [done|];
             destruct (fst (invoke o st)); by rewrite H
         end).
  unfold status. by destruct (invoke GetHealth st) as [[v|e] st'].
Qed.

(** X16. A tool handler never throws. It calls its client method once
    and leaves the client in the state that call leaves; its result is
    flagged as an error exactly when the method threw, and then its text
    is [Error: ] and the message; the requests sent are those of the
    method. *)
Theorem tool_errors_become_results (t : Tool) (st : Client.State) :
  snd (callTool t st) = snd (invoke (toolOp t) st) /\
  (isError (fst (callTool t st)) = true <->
   exists e, fst (invoke (toolOp t) st) = Abrupt e) /\
  (forall e,
     fst (invoke (toolOp t) st) = Abrupt e ->
     fst (callTool t st)
     = {| resultText := "Error: " +:+ message e; isError := true |}) /\
  sent (snd (callTool t st)) = sent st ++ requestsOf (toolOp t) st.
Proof.
  destruct (callTool_invoke t st) as [Hst Hres].
  split; [done|]. split; [|split].
  - destruct (fst (invoke (toolOp t) st)) as [v|e].
    + rewrite Hres. split; [done|]. by intros [e H].
    + rewrite Hres. split; [eauto|done].
  - intros e He. by rewrite He in Hres.
  - rewrite Hst. apply ClientFacts.sent_invoke.
Qed.

Lemma writeTool_mutating (t : Tool) : writeTool t = mutating (toolOp t).
Proof. by destruct t. Qed.

(** X17. The tools the README lists as blocked in readonly mode
    ([create_*], [update_*], [delete_*], [enable_*], [disable_*],
    [renew_certificate]) are exactly those whose client method is
    guarded, and the others are exactly those named [list_*] or [get_*].
    In readonly mode a blocked tool gives an error result that contains
    "readonly mode", and the client is untouched: nothing is sent. *)
Theorem readonly_blocks_write_tools :
  (forall t, writeTool t = mutating (toolOp t)) /\
  (forall t,
     writeTool t = false <->
     startsWith (toolName t) "list_" || startsWith (toolName t) "get_" = true) /\
  (forall t st,
     writeTool t = true -> _readonly (client st) = true ->
     callTool t st
     = ({| resultText :=
             "Error: " +:+ message (ReadonlyModeError (opName (toolOp t)));
           isError := true |}, st) /\
     includes (resultText (fst (callTool t st))) "readonly mode" = true).
Proof.
  split; [exact writeTool_mutating|]. split.
  - intros t. by destruct t.
  - intros t st Hw Hro. rewrite writeTool_mutating in Hw.
    destruct (callTool_invoke t st) as [Hst Hres].
    rewrite (ClientMore.invoke_readonly (toolOp t) st Hw Hro) in Hst, Hres.
    cbn [fst snd] in Hst, Hres.
    assert (callTool t st
            = (errorResult (ReadonlyModeError (opName (toolOp t))), st))
      as Heq by (by destruct (callTool t st); simplify_eq/=).
    split; [exact Heq|]. rewrite Heq. cbn [fst resultText errorResult].
    apply includes_app_r, ClientFacts.ReadonlyModeError_phrase.
Qed.

(** X18. The two dispatchers agree on the id-taking operations: a CLI
    subcommand and the tool that call the same client method with the
    same id leave the client in the same state, and the CLI exits with 1
    exactly when the tool result is flagged as an error. *)
Theorem cli_and_tool_agree (t : Tool) (command subcommand : string)
    (method : Z -> Op) (n : Z) (rest : list string) (p : Cli.Process) :
  Cli.idMethod command subcommand = Some method ->
  toolOp t = method n ->
  Cli.run (snd (Cli.main (command :: subcommand :: idString n :: rest) p))
  = snd (callTool t (Cli.run p)) /\
  (fst (Cli.main (command :: subcommand :: idString n :: rest) p) = 1
   <-> isError (fst (callTool t (Cli.run p))) = true).
Proof.
  intros Hm Ht.
  destruct (callTool_invoke t (Cli.run p)) as [Hst Hres].
  rewrite Ht in Hst, Hres. rewrite Hst.
  pose proof (CliMore.dispatch_id
                (command :: subcommand :: idString n :: rest)
                command subcommand method n p eq_refl eq_refl Hm
                (CliMore.parseId_idString command subcommand n rest p)) as Hd.
  unfold Cli.main.
  destruct (invoke (method n) (Cli.run p)) as [[v|e] st'];
    cbn [fst snd] in *.
  - destruct Hd as (line & -> & _). rewrite Hres. by split.
  - rewrite Hd, Hres. by split.
Qed.

End WithRuntime.
End ToolFacts.

(** ** Further sample runs *)

Module MoreRuns.
Import Client Builtin Scripted.


(** X2, on [--forward-port 3000] and the default "80". *)
Lemma option_values_witness :
  let args := ["--forward-port"; "3000"] in
  Cli.parseArgs args !! "forward-port" = Some "3000" /\
  "3000" <> EmptyString /\ startsWith "3000" "--" = false /\
  orString (Cli.parseArgs args !! "forward-port") "80" = "3000".
Proof.
  cbn zeta. split; [vm_compute; reflexivity|].
  apply (ArgsFacts.option_values_are_values
           ["--forward-port"; "3000"] "forward-port" "3000" "80").
  vm_compute; reflexivity.
Defined.


(** X6, on a service that cannot be reached: the token request of
    [listStreams] is rejected. *)
Lemma network_error_witness :
  let st := start false 0 [] in
  let e := {| name := "TypeError"; message := "fetch failed" |} in
  (requestOf ListStreams = Some ("GET", "/nginx/streams", Undefined) /\
   admitted ListStreams st /\
   cachedToken (client st) (Date_now (world st)) = None /\
   fetch (world st) (tokenRequest (client st)) = (Abrupt e, world st)) /\
  invoke ListStreams st
  = (Abrupt e, afterFetch st (tokenRequest (client st)) (world st)).
Proof.
  cbn zeta.
  assert (admitted ListStreams (start false 0 [])) as Hadm
    by (left; reflexivity).
  split; [split; [reflexivity|split; [exact Hadm|split; reflexivity]]|].
  exact (proj1 (proj2 ClientMore.network_errors_propagate)
           ListStreams "GET" "/nginx/streams" Undefined (start false 0 [])
           {| name := "TypeError"; message := "fetch failed" |}
           (world (start false 0 []))
           eq_refl Hadm eq_refl eq_refl).
Defined.

(** X7, on [getStream(5)] answered with 200 and an empty list. *)
Lemma success_witness :
  let st := start false 0 [tokenReply; listReply] in
  let st1 := snd (ensureToken st) in
  let r := resourceRequest (client st1) "abc" "GET" "/nginx/streams/5"
             Undefined in
  let w := {| clock := 0; script := [] |} in
  (ensureToken st = (Normal "abc", st1) /\
   fetch (world st1) r
   = (Normal {| status := 200; text := stringify (Arr []) |}, w)) /\
  invoke (GetStream 5) st = (Normal (Arr []), afterFetch st1 r w).
Proof.
  cbn zeta. split; [split; reflexivity|].
  assert (admitted (GetStream 5) (start false 0 [tokenReply; listReply]))
    as Hadm by (left; reflexivity).
  assert (status {| status := 200; text := stringify (Arr []) |} <> 204)
    as Hstatus by discriminate.
  exact (ClientMore.success_returns_decoded_body
           (GetStream 5) "GET" "/nginx/streams/5" Undefined
           (start false 0 [tokenReply; listReply])
           (snd (ensureToken (start false 0 [tokenReply; listReply])))
           "abc" {| status := 200; text := stringify (Arr []) |}
           {| clock := 0; script := [] |}
           eq_refl Hadm eq_refl eq_refl eq_refl Hstatus).
Defined.

(** X8, on a readonly client that lists the streams and is then asked to
    delete one. *)
Lemma readonly_only_reads_witness :
  let st := start true 0 [tokenReply; listReply] in
  let st' := snd (invoke (DeleteStream 5) (snd (invoke ListStreams st))) in
  (_readonly (client st) = true /\ reaches st st') /\
  _readonly (client st') = true /\
  exists new,
    sent st' = sent st ++ new /\
    Forall (readOnlyRequest (client st)) new.
Proof.
  cbn zeta.
  assert (reaches (start true 0 [tokenReply; listReply])
            (snd (invoke (DeleteStream 5)
                    (snd (invoke ListStreams
                            (start true 0 [tokenReply; listReply]))))))
    as Hreach
    by (apply reaches_call, reaches_call, reaches_here).
  split; [split; [reflexivity|exact Hreach]|].
  exact (ClientMore.readonly_client_only_reads
           (start true 0 [tokenReply; listReply])
           (snd (invoke (DeleteStream 5)
                   (snd (invoke ListStreams
                           (start true 0 [tokenReply; listReply])))))
           eq_refl Hreach).
Defined.

(** X9, on two calls of [createStream] with different inputs. *)
Lemma routes_witness :
  (requestOf (CreateStream (Obj [])) = Some ("POST", "/nginx/streams", Obj [])
   /\ requestOf (CreateStream Null) = Some ("POST", "/nginx/streams", Null))
  /\ opName (CreateStream (Obj [])) = opName (CreateStream Null)
  /\ opId (CreateStream (Obj [])) = opId (CreateStream Null).
Proof.
  split; [split; reflexivity|].
  exact (RouteFacts.routes_are_distinct (CreateStream (Obj []))
           (CreateStream Null) "POST" "/nginx/streams" (Obj []) Null
           eq_refl eq_refl).
Defined.


(** X11, on [streams delete 5] in readonly mode. *)
Lemma readonly_cli_witness :
  let p := process (start true 0 [tokenReply; reply 204 EmptyString]) in
  (Cli.idMethod "streams" "delete" = Some DeleteStream /\
   "delete" <> "get" /\ _readonly (client (Cli.run p)) = true) /\
  Cli.main ["streams"; "delete"; "5"] p
  = (1, Cli.withError
          ("Error: " +:+ message (ReadonlyModeError "deleteStream"))
          (Cli.afterCall (DeleteStream 5) (Cli.run p) p)).
Proof.
  cbn zeta.
  assert ("delete" <> "get") as Hget by discriminate.
  split; [split; [reflexivity|split; [exact Hget|reflexivity]]|].
  exact (proj1 CliMore.readonly_cli_exits_with_1 "streams" "delete"
           DeleteStream 5 []
           (process (start true 0 [tokenReply; reply 204 EmptyString]))
           eq_refl Hget eq_refl).
Defined.

(** X12, on [users delete 1]: [users] has no [delete]. *)
Lemma unknown_subcommand_witness :
  let p := process (start false 0 []) in
  let args := ["users"; "delete"; "1"] in
  (In "users" Cli.commands /\ "users" <> "status" /\
   forall subcommand,
     args !! 1%nat = Some subcommand ->
     ~ In subcommand (Cli.subcommandsOf "users")) /\
  Cli.main args p = (0, Cli.withError "Usage: users [list|get]" p).
Proof.
  cbn zeta.
  assert (In "users" Cli.commands) as Hin
    by (do 7 right; left; reflexivity).
  assert ("users" <> "status") as Hstatus by discriminate.
  assert (forall subcommand,
            ["users"; "delete"; "1"] !! 1%nat = Some subcommand ->
            ~ In subcommand (Cli.subcommandsOf "users")) as Hsub
    by (intros subcommand [= <-] [H|[H|[]]]; discriminate H).
  split; [split; [exact Hin|split; [exact Hstatus|exact Hsub]]|].
  exact (proj2 CliMore.unknown_input_prints_usage
           ["users"; "delete"; "1"] "users" (process (start false 0 []))
           eq_refl Hin Hstatus Hsub).
Defined.

(** X14, on a health object with a [version]: the property is kept. *)
Lemma status_witness :
  let health := [("version", Str "2")] in
  "version" <> "mcp_server" /\
  getField (Cli.statusObject (Obj health) true) "version" = Str "2".
Proof.
  cbn zeta.
  assert ("version" <> "mcp_server") as Hk by discriminate.
  split; [exact Hk|].
  exact (proj2 (proj2 (CliMore.status_reports_mode (RT := runtime))
                  [("version", Str "2")] true) "version" Hk).
Defined.

(** X15, on an environment without [NPM_URL]. *)
Lemma startup_witness :
  shoutingEnv !! "NPM_URL" = None /\
  Cli.NPM_URL shoutingEnv = "http://localhost:81".
Proof.
  split; [vm_compute; reflexivity|].
  apply (proj2 (proj2 (CliMore.startup_needs_credentials shoutingEnv))).
  left. vm_compute; reflexivity.
Defined.

(** X16, on [get_proxy_host] answered with 404. *)
Lemma tool_error_witness :
  let st := start false 0 [tokenReply; reply 404 "not found"] in
  let t := Index.get_proxy_host 1 in
  exists e,
    fst (invoke (Index.toolOp t) st) = Abrupt e /\
    fst (Index.callTool t st)
    = {| Index.resultText := "Error: " +:+ message e;
         Index.isError := true |}.
Proof.
  cbn zeta. eexists. split; [reflexivity|].
  apply (proj1 (proj2 (proj2 (ToolFacts.tool_errors_become_results
                                (Index.get_proxy_host 1)
                                (start false 0
                                   [tokenReply; reply 404 "not found"]))))).
  reflexivity.
Defined.

(** X17, on [delete_stream] in readonly mode. *)
Lemma readonly_tool_witness :
  let st := start true 0 [tokenReply; reply 204 EmptyString] in
  let t := Index.delete_stream 5 in
  (Index.writeTool t = true /\ _readonly (client st) = true) /\
  Index.callTool t st
  = ({| Index.resultText :=
          "Error: " +:+ message (ReadonlyModeError "deleteStream");
        Index.isError := true |}, st) /\
  includes (Index.resultText (fst (Index.callTool t st))) "readonly mode"
  = true.
Proof.
  cbn zeta. split; [split; reflexivity|].
  exact (proj2 (proj2 ToolFacts.readonly_blocks_write_tools)
           (Index.delete_stream 5)
           (start true 0 [tokenReply; reply 204 EmptyString])
           eq_refl eq_refl).
Defined.

(** X18, on [streams delete 5] and [delete_stream] with id 5. *)
Lemma cli_and_tool_witness :
  let p := process (start false 0 [tokenReply; reply 204 EmptyString]) in
  let t := Index.delete_stream 5 in
  (Cli.idMethod "streams" "delete" = Some DeleteStream /\
   Index.toolOp t = DeleteStream 5) /\
  Cli.run (snd (Cli.main ["streams"; "delete"; "5"] p))
  = snd (Index.callTool t (Cli.run p)) /\
  (fst (Cli.main ["streams"; "delete"; "5"] p) = 1
   <-> Index.isError (fst (Index.callTool t (Cli.run p))) = true).
Proof.
  cbn zeta. split; [split; reflexivity|].
  exact (ToolFacts.cli_and_tool_agree (Index.delete_stream 5)
           "streams" "delete" DeleteStream 5 []
           (process (start false 0 [tokenReply; reply 204 EmptyString]))
           eq_refl eq_refl).
Defined.

End MoreRuns.
